(** * manage_teams.py: GitHub team/repository permission management

    A shallow embedding of [manage_teams.py] and the verification of its
    behavioural properties.

    The script talks to the GitHub REST API through [requests], reads and
    writes CSV files, reads the clock, sleeps and logs.  All of that is
    modelled by explicit state passing over a [world]:

    - the HTTP server is a script of [response]s, consumed one per request
      (an empty script makes the request fail with [ConnectionError]);
    - the clock is a Python float (an IEEE double), advanced by [time_sleep];
    - opening a file and sleeping can fail, as the world says;
    - every observable action (request, sleep, log record, print, CSV row)
      is appended to a chronological [trace].

    Python exceptions are a value of the [result] type, so [try]/[except]
    is ordinary pattern matching.  The two [while] loops of the script take a
    [fuel] bound; the theorems show how much fuel is enough. *)

From Stdlib Require Import QArith ZArith String Ascii List Lia SpecFloat.
From stdpp Require Import base gmap strings list.
Import ListNotations.

Open Scope string_scope.
Open Scope list_scope.
Open Scope Z_scope.

(** ** Python values *)

(** The values [response.json()] can return.  A JSON object is a [dict],
    kept as its items in insertion order (keys are distinct); [None] is
    [JNull]. *)
#[warnings="-register-all"]
Inductive json : Type :=
| JNull
| JBool (b : bool)
| JNum (q : Q)
| JStr (s : string)
| JArr (items : list json)
| JObj (fields : list (string * json)).

(** [d.get(key)] on the items of a dict. *)
Fixpoint assoc {A : Type} (key : string) (fields : list (string * A)) : option A :=
  match fields with
  | [] => None
  | (k, v) :: rest => if String.eqb k key then Some v else assoc key rest
  end.

(** Truth value of a string: [""] is falsy. *)
Definition str_truthy (s : string) : bool :=
  match s with
  | EmptyString => false
  | String _ _ => true
  end.

(** An optional string that is truthy: neither [None] nor [""]. *)
Definition given (o : option string) : option string :=
  match o with
  | Some s => if str_truthy s then Some s else None
  | None => None
  end.

(** Truth value of a value, as tested by [if teams:]. *)
Definition truthy (v : json) : bool :=
  match v with
  | JNull => false
  | JBool b => b
  | JNum q => negb (Qeq_bool q 0)
  | JStr s => str_truthy s
  | JArr items => match items with [] => false | _ :: _ => true end
  | JObj fields => match fields with [] => false | _ :: _ => true end
  end.

(** The characters of a string, each as a one-character string. *)
Fixpoint chars (s : string) : list json :=
  match s with
  | EmptyString => []
  | String c rest => JStr (String c EmptyString) :: chars rest
  end.

(** [str.lower()] on ASCII text. *)
Definition lower_ascii (c : ascii) : ascii :=
  let n := nat_of_ascii c in
  if ((65 <=? n)%nat && (n <=? 90)%nat)%bool then ascii_of_nat (n + 32) else c.

Fixpoint lower (s : string) : string :=
  match s with
  | EmptyString => EmptyString
  | String c rest => String (lower_ascii c) (lower rest)
  end.

(** ** Floats

    Python floats are IEEE 754 doubles: 53 bits of mantissa, rounding to
    nearest even. *)

Definition float_zero : spec_float := S754_zero false.

(** [float(n)], the conversion [n - x] applies to an int [n] when [x] is a
    float: the nearest double, [None] ([OverflowError]) when [n] is beyond
    the doubles. *)
Definition float_of_int (n : Z) : option spec_float :=
  match binary_normalize 53 1024 n 0 false with
  | S754_infinity _ => None
  | x => Some x
  end.

Definition float_sub (x y : spec_float) : spec_float := SFsub 53 1024 x y.

Definition float_add (x y : spec_float) : spec_float := SFadd 53 1024 x y.

(** [max(0, x)]: [x] when [x > 0], the first argument otherwise. *)
Definition max_zero (x : spec_float) : spec_float :=
  if SFltb float_zero x then x else float_zero.

(** ** HTTP *)

Inductive method : Type := GET | PUT.

Record request : Type := {
  req_method : method;
  req_url : string;
  req_headers : list (string * string);
  req_json : option json
}.

(** What the script reads of a [requests.Response]:
    [headers] is the case-insensitive header dict (keyed by the lower-cased
    header name), [json_body] is what [.json()] returns ([None] when the
    body does not decode), [links] is the parsed [Link] header. *)
Record response : Type := {
  status_code : Z;
  resp_headers : gmap string string;
  json_body : option json;
  links : gmap string (gmap string string)
}.

(** [response.headers[name]] and [name in response.headers]. *)
Definition header (r : response) (name : string) : option string :=
  resp_headers r !! lower name.

(** [response.links.get('next', {}).get('url')]. *)
Definition next_url (r : response) : option string :=
  default ∅ (links r !! "next") !! "url".

(** ** Exceptions, log records and the trace *)

Inductive exn : Type :=
| HTTPError (r : response)
| JSONDecodeError
| ConnectionError
| KeyError (key : string)
| TypeError
| ValueError
| IndexError
| OverflowError
| FileNotFoundError (path : string)
| SystemExit (code : Z).

Inductive level : Type := INFO | WARNING | ERROR.

(** The log records of the script: one constructor per f-string, holding the
    values that are interpolated. *)
Inductive message : Type :=
| RateLimitExceeded (sleep_time : spec_float)
| TeamsAssociated (repo_name : json)
| TeamRole (name role : json)
| NoTeamsAssociated (repo_name : json)
| ListTeamsFailed (repo_name : json) (e : exn)
| CsvReportGenerated (csv_filename : string)
| TeamAdded (team_slug repo_name permission : string)
| AddTeamFailed (repo_name : string) (e : exn)
| RepoSourceMissing.

Inductive event : Type :=
| Sent (rq : request)
| Slept (seconds : spec_float)
| Logged (lvl : level) (msg : message)
| Printed (text : string)
| Opened (path : string)
| WroteRow (row : list json)
| Closed (path : string).

(** ** The world and the monad *)

(** [unwritable] holds the paths that cannot be opened for writing, each with
    the exception [open] raises for it; [max_sleep] is the longest wait
    [time.sleep] accepts on the platform. *)
Record world : Type := {
  now : spec_float;
  pending : list response;
  files : gmap string (list (list string));
  unwritable : gmap string exn;
  max_sleep : spec_float;
  trace : list event
}.

Inductive result (A : Type) : Type :=
| Ret (a : A)
| Raise (e : exn)
| OutOfFuel.
Arguments Ret {A} a.
Arguments Raise {A} e.
Arguments OutOfFuel {A}.

Definition M (A : Type) : Type := world -> result A * world.

#[global] Instance M_ret : MRet M := fun A a w => (Ret a, w).

#[global] Instance M_bind : MBind M := fun A B f c w =>
  match c w with
  | (Ret a, w') => f a w'
  | (Raise e, w') => (Raise e, w')
  | (OutOfFuel, w') => (OutOfFuel, w')
  end.

Definition raise {A : Type} (e : exn) : M A := fun w => (Raise e, w).

Definition out_of_fuel {A : Type} : M A := fun w => (OutOfFuel, w).

(** [try: c  except HTTPError as e: h e.response]. *)
Definition except_HTTPError {A : Type} (c : M A) (h : response -> M A) : M A :=
  fun w =>
    match c w with
    | (Raise (HTTPError r), w') => h r w'
    | other => other
    end.

(** [try: c  except JSONDecodeError: h]. *)
Definition except_JSONDecodeError {A : Type} (c : M A) (h : M A) : M A :=
  fun w =>
    match c w with
    | (Raise JSONDecodeError, w') => h w'
    | other => other
    end.

Definition emit (e : event) : M unit := fun w =>
  (Ret tt, {| now := now w; pending := pending w; files := files w;
              unwritable := unwritable w; max_sleep := max_sleep w;
              trace := trace w ++ [e] |}).

(** A request is recorded, then answered by the next scripted response. *)
Definition send (rq : request) : M response := fun w =>
  match pending w with
  | [] => (Raise ConnectionError,
           {| now := now w; pending := []; files := files w;
              unwritable := unwritable w; max_sleep := max_sleep w;
              trace := trace w ++ [Sent rq] |})
  | r :: rest => (Ret r,
           {| now := now w; pending := rest; files := files w;
              unwritable := unwritable w; max_sleep := max_sleep w;
              trace := trace w ++ [Sent rq] |})
  end.

Definition requests_get (url : string) (hdrs : list (string * string)) : M response :=
  send {| req_method := GET; req_url := url; req_headers := hdrs; req_json := None |}.

Definition requests_put (url : string) (hdrs : list (string * string)) (data : json)
  : M response :=
  send {| req_method := PUT; req_url := url; req_headers := hdrs;
          req_json := Some data |}.

(** [response.raise_for_status()]: raises for 4xx and 5xx only. *)
Definition raise_for_status (r : response) : M unit :=
  if ((400 <=? status_code r) && (status_code r <? 600))%bool
  then raise (HTTPError r) else mret tt.

(** [response.json()]. *)
Definition response_json (r : response) : M json :=
  match json_body r with
  | Some v => mret v
  | None => raise JSONDecodeError
  end.

(** [time.time()]. *)
Definition time_time : M spec_float := fun w => (Ret (now w), w).

(** [time.sleep(seconds)].  The call is recorded as [Slept seconds]; it
    raises [ValueError] for a negative wait and [OverflowError] for one that
    is too long, and otherwise the clock moves on. *)
Definition time_sleep (seconds : spec_float) : M unit := fun w =>
  let called :=
    {| now := now w; pending := pending w; files := files w;
       unwritable := unwritable w; max_sleep := max_sleep w;
       trace := trace w ++ [Slept seconds] |} in
  if SFltb seconds float_zero then (Raise ValueError, called)
  else if SFltb (max_sleep w) seconds then (Raise OverflowError, called)
  else
    (Ret tt, {| now := float_add (now w) seconds; pending := pending w;
                files := files w;
                unwritable := unwritable w; max_sleep := max_sleep w;
                trace := trace w ++ [Slept seconds] |}).

Definition logging (lvl : level) (msg : message) : M unit := emit (Logged lvl msg).

(** Iterating a value ([for x in v], [list.extend(v)]): a list gives its
    items, a dict its keys, a string its characters; the rest is not
    iterable. *)
Definition py_iter (v : json) : M (list json) :=
  match v with
  | JArr items => mret items
  | JObj fields => mret (map (fun kv => JStr (fst kv)) fields)
  | JStr s => mret (chars s)
  | _ => raise TypeError
  end.

(** [v[key]] for a string [key]. *)
Definition subscript (v : json) (key : string) : M json :=
  match v with
  | JObj fields =>
      match assoc key fields with
      | Some x => mret x
      | None => raise (KeyError key)
      end
  | _ => raise TypeError
  end.

(** [for x in xs: body x]. *)
Fixpoint for_each {A : Type} (xs : list A) (body : A -> M unit) : M unit :=
  match xs with
  | [] => mret tt
  | x :: rest => body x;; for_each rest body
  end.

(** [[f x for x in xs]], and the append loop of [get_repo_names_from_csv]. *)
Fixpoint map_each {A B : Type} (f : A -> M B) (xs : list A) : M (list B) :=
  match xs with
  | [] => mret []
  | x :: rest => y ← f x; ys ← map_each f rest; mret (y :: ys)
  end.

(** [open(csv_file, newline='')] followed by [csv.reader]: the rows of the
    file, an empty line being an empty row. *)
Definition read_csv (csv_file : string) : M (list (list string)) := fun w =>
  match files w !! csv_file with
  | Some rows => (Ret rows, w)
  | None => (Raise (FileNotFoundError csv_file), w)
  end.

(** [with open(path, mode='w', newline='') as file: body]: when [open]
    raises, nothing else happens; otherwise the file is closed however [body]
    ends. *)
Definition with_open_w {A : Type} (path : string) (body : M A) : M A := fun w =>
  match unwritable w !! path with
  | Some e => (Raise e, w)
  | None =>
      match emit (Opened path) w with
      | (_, w1) =>
          match body w1 with
          | (res, w2) => (res, snd (emit (Closed path) w2))
          end
      end
  end.

Definition writerow (row : list json) : M unit := emit (WroteRow row).

Definition print (text : string) : M unit := emit (Printed text).

(** A reading of [int(s)] on plain decimal strings and of [str(v)] on
    strings, [None] and booleans, with which the model is run on the sample
    servers below. *)
Fixpoint digits_value (s : string) (acc : Z) : option Z :=
  match s with
  | EmptyString => Some acc
  | String c rest =>
      let n := nat_of_ascii c in
      if ((48 <=? n)%nat && (n <=? 57)%nat)%bool
      then digits_value rest (10 * acc + Z.of_nat (n - 48))
      else None
  end.

Definition decimal_int (s : string) : option Z :=
  match s with
  | EmptyString => None
  | _ => digits_value s 0
  end.

Definition plain_str (v : json) : string :=
  match v with
  | JStr s => s
  | JNull => "None"
  | JBool true => "True"
  | JBool false => "False"
  | _ => "?"
  end.

(** ** Sample servers

    Responses and worlds on which the model is run. *)

(** A response without headers or links. *)
Definition reply (status : Z) (body : option json) : response :=
  {| status_code := status; resp_headers := ∅; json_body := body; links := ∅ |}.

(** GitHub's primary rate-limit response: a 403 with no quota left. *)
Definition rate_limit_reply (reset : string) (body : option json) : response :=
  {| status_code := 403;
     resp_headers := <["x-ratelimit-remaining" := "0"]>
                       (<["x-ratelimit-reset" := reset]> ∅);
     json_body := body;
     links := ∅ |}.

(** A 403 with no quota left that names no reset time. *)
Definition quota_reply (body : option json) : response :=
  {| status_code := 403;
     resp_headers := <["x-ratelimit-remaining" := "0"]> ∅;
     json_body := body;
     links := ∅ |}.

(** A page of a listing, with its "next" link when there is one. *)
Definition page_reply (items : list json) (next : option string) : response :=
  {| status_code := 200;
     resp_headers := ∅;
     json_body := Some (JArr items);
     links := match next with
              | Some url => <["next" := <["url" := url]> (<["rel" := "next"]> ∅)]> ∅
              | None => ∅
              end |}.

Definition repo_object (id : Z) (name : string) : json :=
  JObj [("id", JNum (inject_Z id)); ("name", JStr name)].

Definition team_object (name permission : string) : json :=
  JObj [("name", JStr name); ("permission", JStr permission)].

Definition rate_limit_message : json :=
  JObj [("message", JStr "API rate limit exceeded")].

Definition not_found_message : json := JObj [("message", JStr "Not Found")].

Definition page_2 : string := "https://api.github.com/organizations/1/repos?page=2".

(** The clock at [t] seconds. *)
Definition clock_at (t : Z) : spec_float := default float_zero (float_of_int t).

(** The longest wait of the sample worlds, in seconds: 2^63 nanoseconds. *)
Definition sample_max_sleep : spec_float := clock_at 9223372036.

(** A world at time [t] whose server will give the responses [script]; every
    path can be written. *)
Definition world_of (t : Z) (script : list response) : world :=
  {| now := clock_at t; pending := script; files := ∅;
     unwritable := ∅; max_sleep := sample_max_sleep; trace := [] |}.

(** A world with one CSV file. *)
Definition world_with_file (path : string) (rows : list (list string))
    (script : list response) : world :=
  {| now := float_zero; pending := script; files := <[path := rows]> ∅;
     unwritable := ∅; max_sleep := sample_max_sleep; trace := [] |}.

(** A world in which [path] cannot be opened for writing. *)
Definition world_without (path : string) (script : list response) : world :=
  {| now := float_zero; pending := script; files := ∅;
     unwritable := <[path := FileNotFoundError path]> ∅;
     max_sleep := sample_max_sleep; trace := [] |}.

(** ** The script *)

Section Script.

(** [int(s)] on a header value ([None]: [ValueError]) and [str(v)] on a
    value interpolated into a URL.  Both are Python built-ins; the script is
    verified for every reading of them. *)
Variable py_int : string -> option Z.
Variable py_str : json -> string.

Definition headers (token : string) : list (string * string) :=
  [("Authorization", ("token " ++ token)%string);
   ("Accept", "application/vnd.github.v3+json")].

(** The four URLs the script builds (lines 18, 26, 67 and 76). *)
Definition team_url (org team_slug : string) : string :=
  "https://api.github.com/orgs/" ++ org ++ "/teams/" ++ team_slug.

Definition team_repo_url (org team_slug repo_name : string) : string :=
  "https://api.github.com/orgs/" ++ org ++ "/teams/" ++ team_slug
  ++ "/repos/" ++ org ++ "/" ++ repo_name.

Definition repo_teams_url (org : string) (repo_name : json) : string :=
  "https://api.github.com/repos/" ++ org ++ "/" ++ py_str repo_name ++ "/teams".

Definition org_repos_url (org : string) : string :=
  "https://api.github.com/orgs/" ++ org ++ "/repos".

Definition team_exists (org team_slug token : string) : M bool :=
  let url := team_url org team_slug in
  response ← requests_get url (headers token);
  mret (status_code response =? 200).

Definition team_added : json := JObj [("message", JStr "Team added successfully")].

Definition add_team_to_repo (org token team_slug repo_name permission : string)
  : M json :=
  let url := team_repo_url org team_slug repo_name in
  let data := JObj [("permission", JStr permission)] in
  response ← requests_put url (headers token) data;
  if status_code response =? 204 then mret team_added
  else except_JSONDecodeError (response_json response)
         (raise_for_status response;; mret JNull).

(** [row[0]]. *)
Definition first_column (row : list string) : M string :=
  match row with
  | [] => raise IndexError
  | name :: _ => mret name
  end.

Definition get_repo_names_from_csv (csv_file : string) : M (list string) :=
  rows ← read_csv csv_file;
  map_each first_column rows.

(** The condition of line 55. *)
Definition rate_limited (response : response) : bool :=
  (status_code response =? 403)
  && match header response "X-RateLimit-Remaining" with
     | Some remaining => String.eqb remaining "0"
     | None => false
     end.

Definition handle_rate_limiting (response : response) : M bool :=
  if rate_limited response then
    match header response "X-RateLimit-Reset" with
    | None => raise (KeyError (lower "X-RateLimit-Reset"))
    | Some reset =>
        match py_int reset with
        | None => raise ValueError
        | Some reset_time =>
            t ← time_time;
            match float_of_int reset_time with
            | None => raise OverflowError
            | Some reset_float =>
                let sleep_time := max_zero (float_sub reset_float t) in
                logging WARNING (RateLimitExceeded sleep_time);;
                time_sleep sleep_time;;
                mret true
            end
        end
    end
  else mret false.

Definition list_teams_for_repo (org token : string) (repo_name : json) : M json :=
  let url := repo_teams_url org repo_name in
  response ← requests_get url (headers token);
  raise_for_status response;;
  response_json response.

(** The [while url:] loop of [list_all_repos]. *)
Fixpoint list_all_repos_loop (fuel : nat) (token : string) (url : option string)
    (repos : list json) : M (list json) :=
  match given url with
  | None => mret repos
  | Some u =>
      match fuel with
      | O => out_of_fuel
      | S fuel' =>
          response ← requests_get u (headers token);
          raise_for_status response;;
          page ← response_json response;
          items ← py_iter page;
          list_all_repos_loop fuel' token (next_url response) (repos ++ items)
      end
  end.

Definition list_all_repos (fuel : nat) (org token : string) : M (list json) :=
  let url := org_repos_url org in
  repos ← list_all_repos_loop fuel token (Some url) [];
  map_each (fun repo => subscript repo "name") repos.

(** The body of the [for repo_name in repos] loop of [write_teams_to_csv],
    with its [try]/[except]. *)
Definition report_repo (org token : string) (repo_name : json) : M unit :=
  except_HTTPError
    (teams ← list_teams_for_repo org token repo_name;
     if truthy teams then
       logging INFO (TeamsAssociated repo_name);;
       items ← py_iter teams;
       for_each items (fun team =>
         name ← subscript team "name";
         role ← subscript team "permission";
         logging INFO (TeamRole name role);;
         name' ← subscript team "name";
         role' ← subscript team "permission";
         writerow [repo_name; name'; role'])
     else logging INFO (NoTeamsAssociated repo_name))
    (fun r => logging ERROR (ListTeamsFailed repo_name (HTTPError r))).

Definition csv_header : list json := [JStr "Repository"; JStr "Team"; JStr "Role"].

Definition write_teams_to_csv (fuel : nat) (org token csv_filename : string) : M unit :=
  repos ← list_all_repos fuel org token;
  with_open_w csv_filename
    (writerow csv_header;;
     for_each repos (report_repo org token));;
  logging INFO (CsvReportGenerated csv_filename).

(** The [while True] loop of [add_teams_to_repos] for one repository. *)
Fixpoint grant_with_retry (fuel : nat) (org token team_slug repo_name permission : string)
  : M unit :=
  match fuel with
  | O => out_of_fuel
  | S fuel' =>
      except_HTTPError
        (add_team_to_repo org token team_slug repo_name permission;;
         logging INFO (TeamAdded team_slug repo_name permission))
        (fun r =>
           limited ← handle_rate_limiting r;
           if limited : bool
           then grant_with_retry fuel' org token team_slug repo_name permission
           else logging ERROR (AddTeamFailed repo_name (HTTPError r)))
  end.

Definition add_teams_to_repos (fuel : nat) (org token team_slug : string)
    (repo_names : list string) (permission : string) : M unit :=
  for_each repo_names
    (fun repo_name => grant_with_retry fuel org token team_slug repo_name permission).

(** The parsed command line.  [argparse] has checked by now that
    [--permission] is one of its [choices]. *)
Inductive args : Type :=
| ListTeams (org token : string)
| AddTeam (org token team_slug : string) (repo_name csv_file : option string)
    (permission : string).

Definition permission_choices : list string :=
  ["read"; "write"; "admin"; "maintain"; "triage"].

(** Lines 147-149 of [main]. *)
Definition api_permission (permission : string) : string :=
  let permission := lower permission in
  let permission := if String.eqb permission "read" then "pull" else permission in
  if String.eqb permission "write" then "push" else permission.

Definition team_missing (team_slug org : string) : string :=
  "Team '" ++ team_slug ++ "' does not exist in organization '" ++ org ++ "'.".

(** Lines 151-157 of [main]: where the repository names come from. *)
Definition repo_names_of_args (repo_name csv_file : option string) : M (list string) :=
  match given csv_file with
  | Some file => get_repo_names_from_csv file
  | None =>
      match given repo_name with
      | Some name => mret [name]
      | None => logging ERROR RepoSourceMissing;; raise (SystemExit 1)
      end
  end.

Definition main (fuel : nat) (a : args) : M unit :=
  match a with
  | ListTeams org token =>
      let csv_filename := (org ++ "_teams_roles.csv")%string in
      write_teams_to_csv fuel org token csv_filename
  | AddTeam org token team_slug repo_name csv_file permission =>
      let permission := api_permission permission in
      repo_names ← repo_names_of_args repo_name csv_file;
      found ← team_exists org team_slug token;
      if found : bool
      then add_teams_to_repos fuel org token team_slug repo_names permission
      else print (team_missing team_slug org)
  end.

(** ** Vocabulary of the statements *)

(** The world after [rest] is what remains of the script and the events
    [evs] have happened; the clock has not moved. *)
Definition advance (w : world) (rest : list response) (evs : list event) : world :=
  {| now := now w; pending := rest; files := files w;
     unwritable := unwritable w; max_sleep := max_sleep w;
     trace := trace w ++ evs |}.

(** The same after a sleep of [seconds]. *)
Definition advance_clock (w : world) (seconds : spec_float) (rest : list response)
    (evs : list event) : world :=
  {| now := float_add (now w) seconds; pending := rest; files := files w;
     unwritable := unwritable w; max_sleep := max_sleep w;
     trace := trace w ++ evs |}.

(** The requests the script sends. *)
Definition lookup_request (org team_slug token : string) : request :=
  {| req_method := GET; req_url := team_url org team_slug;
     req_headers := headers token; req_json := None |}.

Definition grant_request (org token team_slug repo_name permission : string) : request :=
  {| req_method := PUT; req_url := team_repo_url org team_slug repo_name;
     req_headers := headers token;
     req_json := Some (JObj [("permission", JStr permission)]) |}.

Definition teams_request (org token : string) (repo_name : json) : request :=
  {| req_method := GET; req_url := repo_teams_url org repo_name;
     req_headers := headers token; req_json := None |}.

Definition page_request (token url : string) : request :=
  {| req_method := GET; req_url := url;
     req_headers := headers token; req_json := None |}.

(** A status for which [raise_for_status] raises. *)
Definition error_status (r : response) : bool :=
  (400 <=? status_code r) && (status_code r <? 600).

(** Every event a computation adds to the trace satisfies [P]. *)
Definition emits {A : Type} (P : event -> Prop) (c : M A) : Prop :=
  forall w, exists evs, trace (snd (c w)) = trace w ++ evs /\ Forall P evs.

(** What the bulk grant may do: send grant requests for this team and
    permission, sleep and log. *)
Definition grant_event (org token team_slug permission : string) (e : event) : Prop :=
  match e with
  | Sent rq =>
      exists repo_name, rq = grant_request org token team_slug repo_name permission
  | Slept _ | Logged _ _ => True
  | _ => False
  end.

(** Every PUT carries [permission] as its payload. *)
Definition carries (permission : string) (e : event) : Prop :=
  match e with
  | Sent rq =>
      req_method rq = PUT ->
      req_json rq = Some (JObj [("permission", JStr permission)])
  | _ => True
  end.

(** [item] is an object whose ["name"] is [name]. *)
Definition named (item name : json) : Prop :=
  exists fields, item = JObj fields /\ assoc "name" fields = Some name.

(** [r] answers a page request with repositories called [names]. *)
Definition serves (r : response) (names : list json) : Prop :=
  error_status r = false
  /\ exists items, json_body r = Some (JArr items) /\ Forall2 named items names.

(** A paginated listing: the responses to the successive page requests, the
    names on each page, and the "next" URLs leading from each page to the
    following one.  The last page has no (or an empty) "next" URL. *)
Inductive listing : list response -> list (list json) -> list string -> Prop :=
| listing_last r names :
    serves r names -> given (next_url r) = None ->
    listing [r] [names] []
| listing_next r names url rs pages urls :
    serves r names -> given (next_url r) = Some url ->
    listing rs pages urls ->
    listing (r :: rs) (names :: pages) (url :: urls).

(** ** Vocabulary of the further properties *)

(** The log record the bulk grant writes for a repository answered by [r],
    when [r] is no rate-limit response: a failure for an error status with a
    body that does not decode, a success otherwise. *)
Definition grant_record (team_slug repo_name permission : string) (r : response)
  : event :=
  match json_body r with
  | None =>
      if (negb (status_code r =? 204) && error_status r)%bool
      then Logged ERROR (AddTeamFailed repo_name (HTTPError r))
      else Logged INFO (TeamAdded team_slug repo_name permission)
  | Some _ => Logged INFO (TeamAdded team_slug repo_name permission)
  end.

(** One request and one log record per repository, in order. *)
Fixpoint batch_events (org token team_slug permission : string)
    (repo_names : list string) (served : list response) : list event :=
  match repo_names, served with
  | repo_name :: repo_names', r :: served' =>
      Sent (grant_request org token team_slug repo_name permission)
      :: grant_record team_slug repo_name permission r
      :: batch_events org token team_slug permission repo_names' served'
  | _, _ => []
  end.

(** Pages that are served and each lead to a following one, with the URLs
    they lead to. *)
Inductive linked : list response -> list string -> Prop :=
| linked_nil : linked [] []
| linked_cons r items url rs urls :
    error_status r = false -> json_body r = Some (JArr items) ->
    given (next_url r) = Some url ->
    linked rs urls ->
    linked (r :: rs) (url :: urls).

(** [team] is an object with the name and the permission of [role]. *)
Definition has_role (team : json) (role : json * json) : Prop :=
  exists fields,
    team = JObj fields
    /\ assoc "name" fields = Some (fst role)
    /\ assoc "permission" fields = Some (snd role).

(** What the report logs and writes for the teams of one repository. *)
Definition team_events (repo_name : json) (roles : list (json * json)) : list event :=
  flat_map (fun role =>
              [Logged INFO (TeamRole (fst role) (snd role));
               WroteRow [repo_name; fst role; snd role]]) roles.

(** Events of the report between opening and closing its file: requests
    without payload, log records and rows. *)
Definition report_event (e : event) : Prop :=
  match e with
  | Sent rq => req_method rq = GET /\ req_json rq = None
  | Logged _ _ | WroteRow _ => True
  | _ => False
  end.

(** Every request carries the headers built from [token]. *)
Definition authenticated (token : string) (e : event) : Prop :=
  match e with
  | Sent rq => req_headers rq = headers token
  | _ => True
  end.

(** Nothing is changed on the server and nothing waits: requests are GETs
    without payload, and there is no sleep. *)
Definition read_only (e : event) : Prop :=
  match e with
  | Sent rq => req_method rq = GET /\ req_json rq = None
  | Slept _ => False
  | _ => True
  end.

(** No sleep is negative. *)
Definition rests (e : event) : Prop :=
  match e with
  | Slept seconds => SFltb seconds float_zero = false
  | _ => True
  end.

(** What the report does for the repositories [repo_names] when their teams
    requests are answered by the given responses, each of which lists teams
    with a name and a permission, lists nothing, or has an error status. *)
Inductive reports (org token : string)
  : list json -> list response -> list event -> Prop :=
| reports_done : reports org token [] [] []
| reports_teams repo_name repo_names r served team teams roles evs :
    error_status r = false -> json_body r = Some (JArr (team :: teams)) ->
    Forall2 has_role (team :: teams) roles ->
    reports org token repo_names served evs ->
    reports org token (repo_name :: repo_names) (r :: served)
      (Sent (teams_request org token repo_name)
       :: Logged INFO (TeamsAssociated repo_name)
       :: team_events repo_name roles ++ evs)
| reports_no_teams repo_name repo_names r served teams evs :
    error_status r = false -> json_body r = Some teams -> truthy teams = false ->
    reports org token repo_names served evs ->
    reports org token (repo_name :: repo_names) (r :: served)
      (Sent (teams_request org token repo_name)
       :: Logged INFO (NoTeamsAssociated repo_name)
       :: evs)
| reports_failed repo_name repo_names r served evs :
    error_status r = true ->
    reports org token repo_names served evs ->
    reports org token (repo_name :: repo_names) (r :: served)
      (Sent (teams_request org token repo_name)
       :: Logged ERROR (ListTeamsFailed repo_name (HTTPError r))
       :: evs).

(** How the report ends once its loop over the repositories has: the file
    is closed, and the final record is logged when the loop ended normally. *)
Definition finish_report (csv_filename : string) (loop : result unit * world)
  : result unit * world :=
  match loop with
  | (Ret _, w) =>
      (Ret tt,
       advance w (pending w)
         [Closed csv_filename; Logged INFO (CsvReportGenerated csv_filename)])
  | (Raise e, w) => (Raise e, advance w (pending w) [Closed csv_filename])
  | (OutOfFuel, w) => (OutOfFuel, advance w (pending w) [Closed csv_filename])
  end.

(** ** Stepping lemmas *)

Lemma send_answered rq w r rest :
  pending w = r :: rest -> send rq w = (Ret r, advance w rest [Sent rq]).
Proof. intros H. unfold send, advance. now rewrite H. Qed.

Lemma send_unanswered rq w :
  pending w = [] -> send rq w = (Raise ConnectionError, advance w [] [Sent rq]).
Proof. intros H. unfold send, advance. now rewrite H. Qed.

Lemma emit_advance e w : emit e w = (Ret tt, advance w (pending w) [e]).
Proof. reflexivity. Qed.

Lemma advance_advance w rest1 evs1 rest2 evs2 :
  advance (advance w rest1 evs1) rest2 evs2 = advance w rest2 (evs1 ++ evs2).
Proof. unfold advance. simpl. now rewrite <- app_assoc. Qed.

Lemma raise_for_status_error r :
  error_status r = true -> raise_for_status r = raise (HTTPError r).
Proof. unfold raise_for_status, error_status. now intros ->. Qed.

Lemma raise_for_status_pass r :
  error_status r = false -> raise_for_status r = mret tt.
Proof. unfold raise_for_status, error_status. now intros ->. Qed.

(** ** The API client *)

Lemma team_exists_answered org team_slug token w r rest :
  pending w = r :: rest ->
  team_exists org team_slug token w
  = (Ret (status_code r =? 200),
     advance w rest [Sent (lookup_request org team_slug token)]).
Proof.
  intros Hp. unfold team_exists, requests_get, mbind, M_bind.
  fold (lookup_request org team_slug token).
  now rewrite (send_answered _ _ _ _ Hp).
Qed.

Lemma team_exists_unanswered org team_slug token w :
  pending w = [] ->
  team_exists org team_slug token w
  = (Raise ConnectionError,
     advance w [] [Sent (lookup_request org team_slug token)]).
Proof.
  intros Hp. unfold team_exists, requests_get, mbind, M_bind.
  fold (lookup_request org team_slug token).
  now rewrite (send_unanswered _ _ Hp).
Qed.

(** C6: given the response to the team-lookup call, [team_exists] returns
    true if and only if its status is 200; whatever else the status is (404,
    403, 500, ...) the result is false. *)
Theorem team_exists_iff_status_200 org team_slug token w r rest :
  pending w = r :: rest ->
  exists found : bool,
    team_exists org team_slug token w
    = (Ret found, advance w rest [Sent (lookup_request org team_slug token)])
    /\ (found = true <-> status_code r = 200)
    /\ (In (status_code r) [404; 403; 500] -> found = false).
Proof.
  intros Hp. exists (status_code r =? 200). split; [|split].
  - now apply team_exists_answered.
  - apply Z.eqb_eq.
  - intros Hin. apply Z.eqb_neq. simpl in Hin. lia.
Qed.

Lemma add_team_to_repo_sends org token team_slug repo_name permission w r rest :
  pending w = r :: rest ->
  add_team_to_repo org token team_slug repo_name permission w
  = (if status_code r =? 204 then mret team_added
     else except_JSONDecodeError (response_json r)
            (raise_for_status r;; mret JNull))
      (advance w rest [Sent (grant_request org token team_slug repo_name permission)]).
Proof.
  intros Hp. unfold add_team_to_repo, requests_put, mbind at 1, M_bind at 1.
  fold (grant_request org token team_slug repo_name permission).
  now rewrite (send_answered _ _ _ _ Hp).
Qed.

Lemma add_team_to_repo_204 org token team_slug repo_name permission w r rest :
  pending w = r :: rest -> status_code r = 204 ->
  add_team_to_repo org token team_slug repo_name permission w
  = (Ret team_added,
     advance w rest [Sent (grant_request org token team_slug repo_name permission)]).
Proof.
  intros Hp Hs. rewrite (add_team_to_repo_sends _ _ _ _ _ _ _ _ Hp), Hs. reflexivity.
Qed.

Lemma add_team_to_repo_json org token team_slug repo_name permission w r rest v :
  pending w = r :: rest -> status_code r <> 204 -> json_body r = Some v ->
  add_team_to_repo org token team_slug repo_name permission w
  = (Ret v,
     advance w rest [Sent (grant_request org token team_slug repo_name permission)]).
Proof.
  intros Hp Hs Hj. rewrite (add_team_to_repo_sends _ _ _ _ _ _ _ _ Hp).
  apply Z.eqb_neq in Hs. rewrite Hs.
  unfold except_JSONDecodeError, response_json. now rewrite Hj.
Qed.

Lemma add_team_to_repo_raises org token team_slug repo_name permission w r rest :
  pending w = r :: rest -> status_code r <> 204 -> json_body r = None ->
  error_status r = true ->
  add_team_to_repo org token team_slug repo_name permission w
  = (Raise (HTTPError r),
     advance w rest [Sent (grant_request org token team_slug repo_name permission)]).
Proof.
  intros Hp Hs Hj He. rewrite (add_team_to_repo_sends _ _ _ _ _ _ _ _ Hp).
  apply Z.eqb_neq in Hs. rewrite Hs.
  unfold except_JSONDecodeError, response_json. rewrite Hj.
  unfold raise at 1. now rewrite (raise_for_status_error _ He).
Qed.

(** C2, as the code has it: a 204 gives the success message; any other
    status with a body that decodes gives that body as the result; any other
    status with a body that does not decode raises [HTTPError] when the
    status is an error status (400-599). *)
Theorem add_team_to_repo_outcome org token team_slug repo_name permission w r rest :
  pending w = r :: rest ->
  let outcome := fst (add_team_to_repo org token team_slug repo_name permission w) in
  (status_code r = 204 -> outcome = Ret team_added)
  /\ (forall v, status_code r <> 204 -> json_body r = Some v -> outcome = Ret v)
  /\ (status_code r <> 204 -> json_body r = None -> 400 <= status_code r < 600 ->
      outcome = Raise (HTTPError r)).
Proof.
  intros Hp outcome. subst outcome. repeat split.
  - intros Hs. now rewrite (add_team_to_repo_204 _ _ _ _ _ _ _ _ Hp Hs).
  - intros v Hs Hj. now rewrite (add_team_to_repo_json _ _ _ _ _ _ _ _ _ Hp Hs Hj).
  - intros Hs Hj He.
    rewrite (add_team_to_repo_raises _ _ _ _ _ _ _ _ Hp Hs Hj); [reflexivity|].
    unfold error_status. apply andb_true_intro. split; [apply Z.leb_le | apply Z.ltb_lt]; lia.
Qed.

(** ** Reading the repository names *)

Lemma map_each_first_column_empty_row rows w :
  In [] rows -> map_each first_column rows w = (Raise IndexError, w).
Proof.
  induction rows as [|row rows IH]; intros Hin; [contradiction|].
  destruct row as [|name cols].
  - reflexivity.
  - destruct Hin as [Heq|Hin]; [discriminate|].
    simpl. unfold mbind, M_bind. simpl. fold (@mbind M _).
    unfold mbind, M_bind. now rewrite (IH Hin).
Qed.

Lemma map_each_first_column rows w :
  ~ In [] rows ->
  map_each first_column rows w = (Ret (map (hd "") rows), w).
Proof.
  induction rows as [|row rows IH]; intros Hin; [reflexivity|].
  destruct row as [|name cols].
  - exfalso. apply Hin. now left.
  - simpl. unfold mbind, M_bind. simpl.
    rewrite IH; [reflexivity|]. intros H. apply Hin. now right.
Qed.

(** C10: for a CSV file with at least one empty row,
    [get_repo_names_from_csv] raises [IndexError] (from [row[0]]) and returns
    no list of names. *)
Theorem empty_row_raises_IndexError csv_file rows w :
  files w !! csv_file = Some rows -> In [] rows ->
  get_repo_names_from_csv csv_file w = (Raise IndexError, w).
Proof.
  intros Hf Hin. unfold get_repo_names_from_csv, mbind, M_bind, read_csv.
  rewrite Hf. now apply map_each_first_column_empty_row.
Qed.

Lemma get_repo_names_from_csv_names csv_file rows w :
  files w !! csv_file = Some rows -> ~ In [] rows ->
  get_repo_names_from_csv csv_file w = (Ret (map (hd "") rows), w).
Proof.
  intros Hf Hin. unfold get_repo_names_from_csv, mbind, M_bind, read_csv.
  rewrite Hf. now apply map_each_first_column.
Qed.

(** ** Which events a computation can add *)

Lemma emits_weaken {A : Type} (P Q : event -> Prop) (c : M A) :
  (forall e, P e -> Q e) -> emits P c -> emits Q c.
Proof.
  intros HPQ Hc w. destruct (Hc w) as (evs & Ht & Hall).
  exists evs. split; [exact Ht|]. eapply Forall_impl; eauto.
Qed.

Lemma emits_silent {A : Type} (P : event -> Prop) (c : M A) :
  (forall w, snd (c w) = w) -> emits P c.
Proof.
  intros H w. exists []. rewrite H, app_nil_r. split; [reflexivity | constructor].
Qed.

Lemma emits_mret {A : Type} (P : event -> Prop) (a : A) : emits P (mret a).
Proof. now apply emits_silent. Qed.

Lemma emits_raise {A : Type} (P : event -> Prop) (e : exn) : emits P (@raise A e).
Proof. now apply emits_silent. Qed.

Lemma emits_out_of_fuel {A : Type} (P : event -> Prop) : emits P (@out_of_fuel A).
Proof. now apply emits_silent. Qed.

Lemma emits_bind {A B : Type} (P : event -> Prop) (c : M A) (f : A -> M B) :
  emits P c -> (forall a, emits P (f a)) -> emits P (c ≫= f).
Proof.
  intros Hc Hf w. unfold mbind, M_bind.
  destruct (Hc w) as (evs1 & Ht1 & Hall1).
  destruct (c w) as [[a|e|] w1]; simpl in Ht1.
  - destruct (Hf a w1) as (evs2 & Ht2 & Hall2).
    exists (evs1 ++ evs2). rewrite Ht2, Ht1, app_assoc.
    split; [reflexivity | now apply Forall_app].
  - now exists evs1.
  - now exists evs1.
Qed.

Lemma emits_except_HTTPError {A : Type} (P : event -> Prop) (c : M A) h :
  emits P c -> (forall r, emits P (h r)) -> emits P (except_HTTPError c h).
Proof.
  intros Hc Hh w. unfold except_HTTPError.
  destruct (Hc w) as (evs1 & Ht1 & Hall1).
  destruct (c w) as [[a|e|] w1]; simpl in Ht1; try (now exists evs1).
  destruct e; try (now exists evs1).
  destruct (Hh r w1) as (evs2 & Ht2 & Hall2).
  exists (evs1 ++ evs2). rewrite Ht2, Ht1, app_assoc.
  split; [reflexivity | now apply Forall_app].
Qed.

Lemma emits_except_JSONDecodeError {A : Type} (P : event -> Prop) (c h : M A) :
  emits P c -> emits P h -> emits P (except_JSONDecodeError c h).
Proof.
  intros Hc Hh w. unfold except_JSONDecodeError.
  destruct (Hc w) as (evs1 & Ht1 & Hall1).
  destruct (c w) as [[a|e|] w1]; simpl in Ht1; try (now exists evs1).
  destruct e; try (now exists evs1).
  destruct (Hh w1) as (evs2 & Ht2 & Hall2).
  exists (evs1 ++ evs2). rewrite Ht2, Ht1, app_assoc.
  split; [reflexivity | now apply Forall_app].
Qed.

Lemma emits_emit (P : event -> Prop) (e : event) : P e -> emits P (emit e).
Proof. intros He w. exists [e]. split; [reflexivity | now repeat constructor]. Qed.

Lemma emits_send (P : event -> Prop) (rq : request) : P (Sent rq) -> emits P (send rq).
Proof.
  intros He w. exists [Sent rq]. split; [|now repeat constructor].
  unfold send. now destruct (pending w).
Qed.

Lemma emits_time_sleep (P : event -> Prop) (d : spec_float) :
  P (Slept d) -> emits P (time_sleep d).
Proof.
  intros He w. exists [Slept d]. split; [|now repeat constructor].
  unfold time_sleep.
  destruct (SFltb d float_zero); [reflexivity|].
  now destruct (SFltb (max_sleep w) d).
Qed.

Lemma emits_for_each {A : Type} (P : event -> Prop) (xs : list A) body :
  (forall x, emits P (body x)) -> emits P (for_each xs body).
Proof.
  intros Hb. induction xs as [|x xs IH]; simpl.
  - apply emits_mret.
  - apply emits_bind; [apply Hb | intros _; exact IH].
Qed.

Lemma emits_map_each {A B : Type} (P : event -> Prop) (f : A -> M B) (xs : list A) :
  (forall x, emits P (f x)) -> emits P (map_each f xs).
Proof.
  intros Hf. induction xs as [|x xs IH]; simpl.
  - apply emits_mret.
  - apply emits_bind; [apply Hf | intros y].
    apply emits_bind; [exact IH | intros ys; apply emits_mret].
Qed.

(** ** Bulk grant: one repository *)

Lemma rate_limited_403 r : rate_limited r = true -> status_code r = 403.
Proof.
  unfold rate_limited. intros H. apply andb_prop in H. now apply Z.eqb_eq.
Qed.

Lemma rate_limited_error_status r : rate_limited r = true -> error_status r = true.
Proof.
  intros H. unfold error_status. now rewrite (rate_limited_403 _ H).
Qed.

Lemma handle_rate_limiting_other r w :
  rate_limited r = false -> handle_rate_limiting r w = (Ret false, w).
Proof. intros H. unfold handle_rate_limiting. now rewrite H. Qed.

Lemma max_zero_not_negative x : SFltb (max_zero x) float_zero = false.
Proof.
  unfold max_zero. destruct (SFltb float_zero x) eqn:Hpos; [|reflexivity].
  destruct x as [[]|[]| |[] m e]; try discriminate; reflexivity.
Qed.

Lemma handle_rate_limiting_sleeps r w reset T reset_float :
  rate_limited r = true ->
  header r "X-RateLimit-Reset" = Some reset -> py_int reset = Some T ->
  float_of_int T = Some reset_float ->
  let sleep_time := max_zero (float_sub reset_float (now w)) in
  SFltb (max_sleep w) sleep_time = false ->
  handle_rate_limiting r w
  = (Ret true,
     advance_clock w sleep_time (pending w)
       [Logged WARNING (RateLimitExceeded sleep_time); Slept sleep_time]).
Proof.
  intros Hl Hh Hi Hf sleep_time Hs. unfold handle_rate_limiting.
  rewrite Hl, Hh, Hi.
  unfold mbind at 1, M_bind at 1, time_time. rewrite Hf.
  unfold mbind, M_bind, logging, emit, time_sleep. cbn [now max_sleep].
  unfold sleep_time in Hs |- *. rewrite max_zero_not_negative, Hs.
  unfold advance_clock. cbn. now rewrite <- app_assoc.
Qed.

Lemma grant_with_retry_204 fuel org token team_slug repo_name permission w r rest :
  pending w = r :: rest -> status_code r = 204 ->
  grant_with_retry (S fuel) org token team_slug repo_name permission w
  = (Ret tt,
     advance w rest [Sent (grant_request org token team_slug repo_name permission);
                     Logged INFO (TeamAdded team_slug repo_name permission)]).
Proof.
  intros Hp Hs. simpl. unfold except_HTTPError, mbind, M_bind.
  rewrite (add_team_to_repo_204 _ _ _ _ _ _ _ _ Hp Hs).
  unfold logging. now rewrite emit_advance, advance_advance.
Qed.

Lemma grant_with_retry_json fuel org token team_slug repo_name permission w r rest v :
  pending w = r :: rest -> status_code r <> 204 -> json_body r = Some v ->
  grant_with_retry (S fuel) org token team_slug repo_name permission w
  = (Ret tt,
     advance w rest [Sent (grant_request org token team_slug repo_name permission);
                     Logged INFO (TeamAdded team_slug repo_name permission)]).
Proof.
  intros Hp Hs Hj. simpl. unfold except_HTTPError, mbind, M_bind.
  rewrite (add_team_to_repo_json _ _ _ _ _ _ _ _ _ Hp Hs Hj).
  unfold logging. now rewrite emit_advance, advance_advance.
Qed.

Lemma grant_with_retry_failed fuel org token team_slug repo_name permission w r rest :
  pending w = r :: rest -> status_code r <> 204 -> json_body r = None ->
  error_status r = true -> rate_limited r = false ->
  grant_with_retry (S fuel) org token team_slug repo_name permission w
  = (Ret tt,
     advance w rest [Sent (grant_request org token team_slug repo_name permission);
                     Logged ERROR (AddTeamFailed repo_name (HTTPError r))]).
Proof.
  intros Hp Hs Hj He Hl. simpl. unfold except_HTTPError, mbind, M_bind.
  rewrite (add_team_to_repo_raises _ _ _ _ _ _ _ _ Hp Hs Hj He).
  rewrite (handle_rate_limiting_other _ _ Hl).
  unfold logging. now rewrite emit_advance, advance_advance.
Qed.

Lemma grant_with_retry_again fuel org token team_slug repo_name permission w r rest
    reset T reset_float :
  pending w = r :: rest -> json_body r = None -> rate_limited r = true ->
  header r "X-RateLimit-Reset" = Some reset -> py_int reset = Some T ->
  float_of_int T = Some reset_float ->
  let sleep_time := max_zero (float_sub reset_float (now w)) in
  SFltb (max_sleep w) sleep_time = false ->
  grant_with_retry (S fuel) org token team_slug repo_name permission w
  = grant_with_retry fuel org token team_slug repo_name permission
      (advance_clock w sleep_time rest
         [Sent (grant_request org token team_slug repo_name permission);
          Logged WARNING (RateLimitExceeded sleep_time);
          Slept sleep_time]).
Proof.
  intros Hp Hj Hl Hh Hi Hf sleep_time Hlong.
  assert (Hs : status_code r <> 204) by (rewrite (rate_limited_403 _ Hl); lia).
  simpl. unfold except_HTTPError, mbind, M_bind.
  rewrite (add_team_to_repo_raises _ _ _ _ _ _ _ _ Hp Hs Hj
             (rate_limited_error_status _ Hl)).
  rewrite (handle_rate_limiting_sleeps _ (advance w rest _) _ _ _ Hl Hh Hi Hf Hlong).
  unfold advance, advance_clock. cbn. now rewrite <- app_assoc.
Qed.

(** ** Bulk grant: the batch *)

Lemma add_teams_to_repos_next fuel org token team_slug repo_name repo_names permission
    w w' :
  grant_with_retry fuel org token team_slug repo_name permission w = (Ret tt, w') ->
  add_teams_to_repos fuel org token team_slug (repo_name :: repo_names) permission w
  = add_teams_to_repos fuel org token team_slug repo_names permission w'.
Proof.
  intros H. unfold add_teams_to_repos. simpl. unfold mbind, M_bind. now rewrite H.
Qed.

(** C9: when the PUT is answered with a status other than 204 and a body
    that decodes as JSON, the bulk grant logs the success record for that
    repository and goes on with the next one: the request is sent once, no
    failure is logged, whatever the status was. *)
Theorem json_error_body_logged_as_success fuel org token team_slug repo_name
    repo_names permission w r rest v :
  pending w = r :: rest -> status_code r <> 204 -> json_body r = Some v ->
  add_teams_to_repos (S fuel) org token team_slug (repo_name :: repo_names) permission w
  = add_teams_to_repos (S fuel) org token team_slug repo_names permission
      (advance w rest
         [Sent (grant_request org token team_slug repo_name permission);
          Logged INFO (TeamAdded team_slug repo_name permission)]).
Proof.
  intros Hp Hs Hj. apply add_teams_to_repos_next.
  exact (grant_with_retry_json _ _ _ _ _ _ _ _ _ _ Hp Hs Hj).
Qed.

(** C3: over the repositories [r1; r2], when the call for [r1] raises an
    HTTP error that is not a rate limit and the call for [r2] succeeds, [r1]
    is logged as failed after one attempt and the grant for [r2] is still
    sent and completes; the batch ends normally. *)
Theorem failure_does_not_abort_batch fuel org token team_slug r1 r2 permission w
    failed ok rest :
  pending w = failed :: ok :: rest ->
  json_body failed = None -> 400 <= status_code failed < 600 ->
  rate_limited failed = false ->
  status_code ok = 204 ->
  add_teams_to_repos (S fuel) org token team_slug [r1; r2] permission w
  = (Ret tt,
     advance w rest
       [Sent (grant_request org token team_slug r1 permission);
        Logged ERROR (AddTeamFailed r1 (HTTPError failed));
        Sent (grant_request org token team_slug r2 permission);
        Logged INFO (TeamAdded team_slug r2 permission)]).
Proof.
  intros Hp Hj He Hl Hok.
  assert (Hs : status_code failed <> 204) by lia.
  assert (He' : error_status failed = true).
  { unfold error_status. apply andb_true_intro.
    split; [apply Z.leb_le | apply Z.ltb_lt]; lia. }
  rewrite (add_teams_to_repos_next _ _ _ _ _ _ _ _ _
             (grant_with_retry_failed fuel _ _ _ _ _ _ _ _ Hp Hs Hj He' Hl)).
  rewrite (add_teams_to_repos_next _ _ _ _ _ _ _ _ _
             (grant_with_retry_204 fuel _ _ _ _ _ (advance w (ok :: rest) _) ok rest
                eq_refl Hok)).
  now rewrite advance_advance.
Qed.

(** The retry of the bulk grant, on the path where it is taken: a
    rate-limit response whose body does not decode, with a reset time that
    converts to a float and a wait the platform accepts, makes the loop sleep
    [max(0, T - now)] in float arithmetic, send the same request again, and
    succeed on the 204 that follows. *)
Lemma rate_limit_retry_unparseable fuel org token team_slug repo_name permission w
    limited ok rest reset T reset_float :
  pending w = limited :: ok :: rest ->
  rate_limited limited = true -> json_body limited = None ->
  header limited "X-RateLimit-Reset" = Some reset -> py_int reset = Some T ->
  float_of_int T = Some reset_float ->
  status_code ok = 204 ->
  let sleep_time := max_zero (float_sub reset_float (now w)) in
  SFltb (max_sleep w) sleep_time = false ->
  add_teams_to_repos (S (S fuel)) org token team_slug [repo_name] permission w
  = (Ret tt,
     advance_clock w sleep_time rest
       [Sent (grant_request org token team_slug repo_name permission);
        Logged WARNING (RateLimitExceeded sleep_time);
        Slept sleep_time;
        Sent (grant_request org token team_slug repo_name permission);
        Logged INFO (TeamAdded team_slug repo_name permission)]).
Proof.
  intros Hp Hl Hj Hh Hi Hf Hok sleep_time Hlong.
  erewrite add_teams_to_repos_next; [reflexivity|].
  rewrite (grant_with_retry_again _ _ _ _ _ _ _ _ _ _ _ _ Hp Hj Hl Hh Hi Hf Hlong).
  fold sleep_time.
  rewrite grant_with_retry_204 with (r := ok) (rest := rest);
    [|reflexivity|exact Hok].
  unfold advance, advance_clock. cbn. now rewrite <- app_assoc.
Qed.

(** ** Bulk grant: which events it adds *)

Lemma emits_add_team_to_repo org token team_slug repo_name permission :
  emits (grant_event org token team_slug permission)
    (add_team_to_repo org token team_slug repo_name permission).
Proof.
  unfold add_team_to_repo, requests_put.
  apply emits_bind.
  - apply emits_send. now exists repo_name.
  - intros r. destruct (status_code r =? 204); [apply emits_mret|].
    apply emits_except_JSONDecodeError.
    + unfold response_json. destruct (json_body r); [apply emits_mret | apply emits_raise].
    + apply emits_bind; [|intros _; apply emits_mret].
      unfold raise_for_status.
      destruct (_ && _)%bool; [apply emits_raise | apply emits_mret].
Qed.

Lemma emits_handle_rate_limiting org token team_slug permission r :
  emits (grant_event org token team_slug permission) (handle_rate_limiting r).
Proof.
  unfold handle_rate_limiting.
  destruct (rate_limited r); [|apply emits_mret].
  destruct (header r _); [|apply emits_raise].
  destruct (py_int _); [|apply emits_raise].
  apply emits_bind; [now apply emits_silent | intros t].
  destruct (float_of_int _); [|apply emits_raise].
  apply emits_bind; [now apply emits_emit | intros _].
  apply emits_bind; [now apply emits_time_sleep | intros _; apply emits_mret].
Qed.

Lemma emits_grant_with_retry fuel org token team_slug repo_name permission :
  emits (grant_event org token team_slug permission)
    (grant_with_retry fuel org token team_slug repo_name permission).
Proof.
  induction fuel as [|fuel IH]; simpl; [apply emits_out_of_fuel|].
  apply emits_except_HTTPError.
  - apply emits_bind; [apply emits_add_team_to_repo | intros _].
    now apply emits_emit.
  - intros r. apply emits_bind; [apply emits_handle_rate_limiting | intros limited].
    destruct limited; [exact IH | now apply emits_emit].
Qed.

Lemma emits_add_teams_to_repos fuel org token team_slug repo_names permission :
  emits (grant_event org token team_slug permission)
    (add_teams_to_repos fuel org token team_slug repo_names permission).
Proof. apply emits_for_each. intros x. apply emits_grant_with_retry. Qed.

(** ** The add-team command *)

Lemma grant_event_carries org token team_slug permission e :
  grant_event org token team_slug permission e -> carries permission e.
Proof.
  destruct e; simpl; try easy. intros [repo_name ->]. reflexivity.
Qed.

Lemma emits_repo_names_of_args (P : event -> Prop) repo_name csv_file :
  P (Logged ERROR RepoSourceMissing) -> emits P (repo_names_of_args repo_name csv_file).
Proof.
  intros HP. unfold repo_names_of_args.
  destruct (given csv_file) as [file|].
  - unfold get_repo_names_from_csv. apply emits_bind.
    + apply emits_silent. intros w. unfold read_csv. now destruct (files w !! file).
    + intros rows. apply emits_map_each. intros [|name cols]; simpl;
        [apply emits_raise | apply emits_mret].
  - destruct (given repo_name); [apply emits_mret|].
    apply emits_bind; [now apply emits_emit | intros _; apply emits_raise].
Qed.

Lemma emits_main_add_team fuel org token team_slug repo_name csv_file permission :
  emits (carries (api_permission permission))
    (main fuel (AddTeam org token team_slug repo_name csv_file permission)).
Proof.
  simpl. apply emits_bind; [now apply emits_repo_names_of_args | intros names].
  apply emits_bind.
  - unfold team_exists, requests_get. apply emits_bind; [|intros r; apply emits_mret].
    apply emits_send. simpl. discriminate.
  - intros found. destruct found; [|now apply emits_emit].
    eapply emits_weaken; [|apply emits_add_teams_to_repos].
    apply grant_event_carries.
Qed.


Lemma main_add_team_with_names fuel org token team_slug repo_name csv_file permission
    names w :
  repo_names_of_args repo_name csv_file w = (Ret names, w) ->
  main fuel (AddTeam org token team_slug repo_name csv_file permission) w
  = (found ← team_exists org team_slug token;
     if found : bool
     then add_teams_to_repos fuel org token team_slug names (api_permission permission)
     else print (team_missing team_slug org)) w.
Proof.
  intros H. simpl. unfold mbind at 1, M_bind at 1. now rewrite H.
Qed.

(** Without repository names the command stops before any request. *)
Lemma main_add_team_without_names fuel org token team_slug repo_name csv_file
    permission e w w' :
  repo_names_of_args repo_name csv_file w = (Raise e, w') ->
  main fuel (AddTeam org token team_slug repo_name csv_file permission) w
  = (Raise e, w').
Proof.
  intros H. simpl. unfold mbind at 1, M_bind at 1. now rewrite H.
Qed.

Lemma main_add_team_trace fuel org token team_slug repo_name csv_file permission
    names w :
  repo_names_of_args repo_name csv_file w = (Ret names, w) ->
  exists evs,
    trace (snd (main fuel (AddTeam org token team_slug repo_name csv_file permission) w))
    = trace w ++ Sent (lookup_request org team_slug token) :: evs
    /\ match pending w with
       | [] => evs = []
       | r :: _ =>
           if status_code r =? 200
           then Forall (grant_event org token team_slug (api_permission permission)) evs
           else evs = [Printed (team_missing team_slug org)]
       end.
Proof.
  intros Hnames. rewrite (main_add_team_with_names _ _ _ _ _ _ _ _ _ Hnames).
  unfold mbind, M_bind.
  destruct (pending w) as [|r rest] eqn:Hp.
  - rewrite (team_exists_unanswered _ _ _ _ Hp). now exists [].
  - rewrite (team_exists_answered _ _ _ _ _ _ Hp).
    destruct (status_code r =? 200).
    + destruct (emits_add_teams_to_repos fuel org token team_slug names
                  (api_permission permission)
                  (advance w rest [Sent (lookup_request org team_slug token)]))
        as (evs & Ht & Hall).
      exists evs. rewrite Ht. simpl. now rewrite <- app_assoc.
    + exists [Printed (team_missing team_slug org)]. simpl.
      now rewrite <- app_assoc.
Qed.

(** C7: once the add-team command has its repository names, the team lookup
    is the first thing it sends, and it is sent once: every later request is
    a grant PUT, none is the lookup again.  When the lookup says the team
    does not exist (a status other than 200), nothing more is sent and the
    message is printed. *)
Theorem team_checked_once_before_grants fuel org token team_slug repo_name csv_file
    permission names w :
  repo_names_of_args repo_name csv_file w = (Ret names, w) ->
  exists evs,
    trace (snd (main fuel (AddTeam org token team_slug repo_name csv_file permission) w))
    = trace w ++ Sent (lookup_request org team_slug token) :: evs
    /\ (forall rq, In (Sent rq) evs ->
          exists repo,
            rq = grant_request org token team_slug repo (api_permission permission))
    /\ ~ In (Sent (lookup_request org team_slug token)) evs
    /\ (forall r rest, pending w = r :: rest -> status_code r <> 200 ->
          evs = [Printed (team_missing team_slug org)]).
Proof.
  intros Hnames.
  destruct (main_add_team_trace fuel org token team_slug repo_name csv_file
              permission names w Hnames) as (evs & Ht & Hevs).
  exists evs. split; [exact Ht|].
  assert (Hgrants : forall rq, In (Sent rq) evs ->
            exists repo,
              rq = grant_request org token team_slug repo (api_permission permission)).
  { intros rq Hin. destruct (pending w) as [|r rest].
    - subst evs. contradiction.
    - destruct (status_code r =? 200).
      + rewrite List.Forall_forall in Hevs. exact (Hevs _ Hin).
      + subst evs. destruct Hin as [Hin|[]]. discriminate. }
  split; [exact Hgrants | split].
  - intros Hin. destruct (Hgrants _ Hin) as [repo Heq]. discriminate.
  - intros r rest Hp Hne. rewrite Hp in Hevs.
    apply Z.eqb_neq in Hne. now rewrite Hne in Hevs.
Qed.

(** ** Listing the repositories *)

Lemma list_all_repos_loop_done fuel token url repos w :
  given url = None -> list_all_repos_loop fuel token url repos w = (Ret repos, w).
Proof. intros H. destruct fuel; simpl; now rewrite H. Qed.

Lemma list_all_repos_loop_page fuel token url u repos w r rest items :
  given url = Some u ->
  pending w = r :: rest -> error_status r = false -> json_body r = Some (JArr items) ->
  list_all_repos_loop (S fuel) token url repos w
  = list_all_repos_loop fuel token (next_url r) (repos ++ items)
      (advance w rest [Sent (page_request token u)]).
Proof.
  intros Hu Hp He Hj. cbn [list_all_repos_loop]. rewrite Hu.
  unfold requests_get, mbind at 1, M_bind at 1.
  fold (page_request token u). rewrite (send_answered _ _ _ _ Hp).
  rewrite (raise_for_status_pass _ He).
  unfold response_json. rewrite Hj. reflexivity.
Qed.

Lemma list_all_repos_loop_listing token rs pages urls :
  listing rs pages urls ->
  exists items,
    Forall2 named items (concat pages)
    /\ forall fuel url u repos w rest,
         given url = Some u -> pending w = rs ++ rest -> (length rs <= fuel)%nat ->
         list_all_repos_loop fuel token url repos w
         = (Ret (repos ++ items),
            advance w rest (map (fun v => Sent (page_request token v)) (u :: urls))).
Proof.
  induction 1 as [r names [He (items & Hj & Hn)] Hlast
                 |r names next rs pages urls [He (items & Hj & Hn)] Hnext _
                    (more & Hmore & IH)].
  - exists items. split; [simpl; now rewrite app_nil_r|].
    intros [|fuel] url u repos w rest Hu Hp Hf; [simpl in Hf; lia|].
    rewrite (list_all_repos_loop_page _ _ _ _ _ _ _ _ _ Hu Hp He Hj).
    now rewrite (list_all_repos_loop_done _ _ _ _ _ Hlast).
  - exists (items ++ more). split; [simpl; now apply Forall2_app|].
    intros [|fuel] url u repos w rest Hu Hp Hf; [simpl in Hf; lia|].
    rewrite (list_all_repos_loop_page _ _ _ _ _ _ _ _ _ Hu Hp He Hj).
    rewrite (IH fuel _ next _ (advance w (rs ++ rest) _) rest Hnext eq_refl);
      [|simpl in Hf; lia].
    now rewrite advance_advance, <- app_assoc.
Qed.

Lemma names_of_items items names w :
  Forall2 named items names ->
  map_each (fun repo => subscript repo "name") items w = (Ret names, w).
Proof.
  induction 1 as [|item name items names (fields & -> & Hname) _ IH];
    [reflexivity|].
  simpl. unfold mbind, M_bind. rewrite Hname. simpl. now rewrite IH.
Qed.

(** C4: for a paginated listing followed through its "next" links until
    there is none, [list_all_repos] returns the names of all pages
    concatenated in page order, after requesting the first page and then
    each "next" URL in turn. *)
Theorem list_all_repos_concatenates_pages fuel org token w rs pages urls rest :
  listing rs pages urls ->
  pending w = rs ++ rest -> (length rs <= fuel)%nat ->
  list_all_repos fuel org token w
  = (Ret (concat pages),
     advance w rest
       (map (fun url => Sent (page_request token url)) (org_repos_url org :: urls))).
Proof.
  intros Hl Hp Hf.
  destruct (list_all_repos_loop_listing token _ _ _ Hl) as (items & Hn & Hloop).
  unfold list_all_repos, mbind, M_bind.
  rewrite (Hloop fuel (Some (org_repos_url org)) (org_repos_url org) [] w rest
             eq_refl Hp Hf).
  simpl app at 1. now rewrite (names_of_items _ _ _ Hn).
Qed.

(** ** The report *)

Lemma for_each_next {A : Type} (x : A) xs body w w' :
  body x w = (Ret tt, w') -> for_each (x :: xs) body w = for_each xs body w'.
Proof. intros H. simpl. unfold mbind, M_bind. now rewrite H. Qed.

Lemma list_teams_for_repo_answered org token repo_name w r rest :
  pending w = r :: rest ->
  list_teams_for_repo org token repo_name w
  = (raise_for_status r;; response_json r)
      (advance w rest [Sent (teams_request org token repo_name)]).
Proof.
  intros Hp. unfold list_teams_for_repo, requests_get, mbind at 1, M_bind at 1.
  fold (teams_request org token repo_name).
  now rewrite (send_answered _ _ _ _ Hp).
Qed.

Lemma report_repo_failed org token repo_name w r rest :
  pending w = r :: rest -> error_status r = true ->
  report_repo org token repo_name w
  = (Ret tt,
     advance w rest
       [Sent (teams_request org token repo_name);
        Logged ERROR (ListTeamsFailed repo_name (HTTPError r))]).
Proof.
  intros Hp He. unfold report_repo, except_HTTPError.
  unfold mbind at 1, M_bind at 1.
  rewrite (list_teams_for_repo_answered _ _ _ _ _ _ Hp).
  rewrite (raise_for_status_error _ He).
  unfold mbind, M_bind, raise, logging.
  now rewrite emit_advance, advance_advance.
Qed.

(** ** Further properties: reading the CSV file *)

(** X1: for a CSV file without empty rows, [get_repo_names_from_csv]
    returns the first column of every row, in file order, whatever the other
    columns hold, and touches nothing else. *)
Theorem csv_first_column_in_order csv_file rows w :
  files w !! csv_file = Some rows -> Forall (fun row => row <> []) rows ->
  get_repo_names_from_csv csv_file w = (Ret (map (hd "") rows), w).
Proof.
  intros Hf Hrows. apply get_repo_names_from_csv_names; [exact Hf|].
  intros Hin. rewrite List.Forall_forall in Hrows. now apply (Hrows [] Hin).
Qed.


(** ** Further properties: the permission *)

Lemma lower_ascii_idempotent c : lower_ascii (lower_ascii c) = lower_ascii c.
Proof.
  destruct c as [[] [] [] [] [] [] [] []]; reflexivity.
Qed.

Lemma lower_idempotent s : lower (lower s) = lower s.
Proof.
  induction s as [|c s IH]; simpl; [reflexivity|].
  now rewrite lower_ascii_idempotent, IH.
Qed.

(** X3: whatever the input, the permission sent is never "read" nor
    "write", and normalising it again changes nothing. *)
Theorem api_permission_normal permission :
  api_permission permission <> "read"
  /\ api_permission permission <> "write"
  /\ api_permission (api_permission permission) = api_permission permission.
Proof.
  unfold api_permission.
  destruct (String.eqb (lower permission) "read") eqn:Hread.
  - repeat split; simpl; discriminate.
  - destruct (String.eqb (lower permission) "write") eqn:Hwrite.
    + repeat split; simpl; try discriminate.
    + apply String.eqb_neq in Hread as Hr. apply String.eqb_neq in Hwrite as Hw.
      repeat split; try assumption.
      rewrite lower_idempotent. now rewrite Hread, Hwrite.
Qed.

(** ** Further properties: the bulk grant *)

(** X5: a rate-limit response (403, no quota left, body that does not
    decode) whose reset header is missing, is no integer, or is an integer
    beyond the floats makes [handle_rate_limiting] raise inside the [except]
    branch: the bulk grant ends with [KeyError] (for the lower-cased header
    name), [ValueError] or [OverflowError] after that one request, without a
    sleep, and the repositories that follow are not attempted. *)
Theorem unreadable_reset_aborts_batch fuel org token team_slug repo_name repo_names
    permission w r rest :
  pending w = r :: rest -> json_body r = None -> rate_limited r = true ->
  (header r "X-RateLimit-Reset" = None ->
   add_teams_to_repos (S fuel) org token team_slug (repo_name :: repo_names)
     permission w
   = (Raise (KeyError "x-ratelimit-reset"),
      advance w rest [Sent (grant_request org token team_slug repo_name permission)]))
  /\ (forall reset,
        header r "X-RateLimit-Reset" = Some reset -> py_int reset = None ->
        add_teams_to_repos (S fuel) org token team_slug (repo_name :: repo_names)
          permission w
        = (Raise ValueError,
           advance w rest
             [Sent (grant_request org token team_slug repo_name permission)]))
  /\ (forall reset T,
        header r "X-RateLimit-Reset" = Some reset -> py_int reset = Some T ->
        float_of_int T = None ->
        add_teams_to_repos (S fuel) org token team_slug (repo_name :: repo_names)
          permission w
        = (Raise OverflowError,
           advance w rest
             [Sent (grant_request org token team_slug repo_name permission)])).
Proof.
  intros Hp Hj Hl.
  assert (Hs : status_code r <> 204) by (rewrite (rate_limited_403 _ Hl); lia).
  assert (Hraise := add_team_to_repo_raises org token team_slug repo_name permission
                      _ _ _ Hp Hs Hj (rate_limited_error_status _ Hl)).
  split; [|split].
  - intros Hh. unfold add_teams_to_repos. simpl.
    unfold mbind at 1, M_bind at 1, except_HTTPError, mbind at 1, M_bind at 1.
    rewrite Hraise. unfold mbind, M_bind, handle_rate_limiting.
    now rewrite Hl, Hh.
  - intros reset Hh Hi. unfold add_teams_to_repos. simpl.
    unfold mbind at 1, M_bind at 1, except_HTTPError, mbind at 1, M_bind at 1.
    rewrite Hraise. unfold mbind, M_bind, handle_rate_limiting.
    now rewrite Hl, Hh, Hi.
  - intros reset T Hh Hi Hf. unfold add_teams_to_repos. simpl.
    unfold mbind at 1, M_bind at 1, except_HTTPError, mbind at 1, M_bind at 1.
    rewrite Hraise. unfold mbind, M_bind, handle_rate_limiting.
    rewrite Hl, Hh, Hi. unfold time_time. now rewrite Hf.
Qed.

Lemma grant_with_retry_none fuel org token team_slug repo_name permission w r rest :
  pending w = r :: rest -> status_code r <> 204 -> json_body r = None ->
  error_status r = false ->
  grant_with_retry (S fuel) org token team_slug repo_name permission w
  = (Ret tt,
     advance w rest [Sent (grant_request org token team_slug repo_name permission);
                     Logged INFO (TeamAdded team_slug repo_name permission)]).
Proof.
  intros Hp Hs Hj He. simpl. unfold except_HTTPError, mbind, M_bind.
  rewrite (add_team_to_repo_sends _ _ _ _ _ _ _ _ Hp).
  apply Z.eqb_neq in Hs. rewrite Hs.
  unfold except_JSONDecodeError, response_json. rewrite Hj.
  unfold raise at 1. rewrite (raise_for_status_pass _ He).
  unfold mbind, M_bind, logging. simpl.
  unfold advance. simpl. now rewrite <- app_assoc.
Qed.

Lemma grant_with_retry_once fuel org token team_slug repo_name permission w r rest :
  pending w = r :: rest -> rate_limited r = false ->
  grant_with_retry (S fuel) org token team_slug repo_name permission w
  = (Ret tt,
     advance w rest [Sent (grant_request org token team_slug repo_name permission);
                     grant_record team_slug repo_name permission r]).
Proof.
  intros Hp Hl. unfold grant_record.
  destruct (json_body r) as [v|] eqn:Hj.
  - destruct (Z.eq_dec (status_code r) 204) as [Hs|Hs].
    + exact (grant_with_retry_204 _ _ _ _ _ _ _ _ _ Hp Hs).
    + exact (grant_with_retry_json _ _ _ _ _ _ _ _ _ _ Hp Hs Hj).
  - destruct (Z.eq_dec (status_code r) 204) as [Hs|Hs].
    + rewrite Hs. simpl. exact (grant_with_retry_204 _ _ _ _ _ _ _ _ _ Hp Hs).
    + apply Z.eqb_neq in Hs as Hs'. rewrite Hs'. simpl.
      destruct (error_status r) eqn:He.
      * exact (grant_with_retry_failed _ _ _ _ _ _ _ _ _ Hp Hs Hj He Hl).
      * exact (grant_with_retry_none _ _ _ _ _ _ _ _ _ Hp Hs Hj He).
Qed.

Lemma add_teams_to_repos_batch fuel org token team_slug permission
    repo_names served rest w :
  length served = length repo_names ->
  Forall (fun r => rate_limited r = false) served ->
  pending w = served ++ rest ->
  add_teams_to_repos (S fuel) org token team_slug repo_names permission w
  = (Ret tt,
     advance w rest (batch_events org token team_slug permission repo_names served)).
Proof.
  revert served w.
  induction repo_names as [|repo_name repo_names IH];
    intros [|r served] w Hlen Hall Hp; try discriminate.
  - simpl in Hp. unfold add_teams_to_repos, advance. simpl.
    rewrite app_nil_r, <- Hp. now destruct w.
  - inversion Hall as [|? ? Hl Hall']; subst.
    rewrite (add_teams_to_repos_next _ _ _ _ _ _ _ _ _
               (grant_with_retry_once fuel _ _ _ _ _ _ _ _ Hp Hl)).
    rewrite (IH served); [|now injection Hlen | exact Hall' | reflexivity].
    now rewrite advance_advance.
Qed.

(** X7: when none of the responses is a rate-limit response, the bulk
    grant sends exactly one PUT per repository, in the order of the list,
    logs one record for each (a failure for an error status with a body that
    does not decode, a success otherwise) and returns normally: no response
    stops the batch. *)
Theorem batch_one_request_per_repository fuel org token team_slug permission
    repo_names served rest w :
  length served = length repo_names ->
  Forall (fun r => rate_limited r = false) served ->
  pending w = served ++ rest ->
  add_teams_to_repos (S fuel) org token team_slug repo_names permission w
  = (Ret tt,
     advance w rest (batch_events org token team_slug permission repo_names served)).
Proof. apply add_teams_to_repos_batch. Qed.

(** X8: the add-team command as a whole, when the team exists and no
    response is a rate-limit response: after the lookup it sends one PUT per
    repository name, in order, each with the normalised permission, logs one
    record for each, and ends normally. *)
Theorem add_team_command_grants_all fuel org token team_slug repo_name csv_file
    permission names found served rest w :
  repo_names_of_args repo_name csv_file w = (Ret names, w) ->
  pending w = found :: served ++ rest -> status_code found = 200 ->
  length served = length names ->
  Forall (fun r => rate_limited r = false) served ->
  main (S fuel) (AddTeam org token team_slug repo_name csv_file permission) w
  = (Ret tt,
     advance w rest
       (Sent (lookup_request org team_slug token)
        :: batch_events org token team_slug (api_permission permission) names served)).
Proof.
  intros Hnames Hp Hs Hlen Hall.
  rewrite (main_add_team_with_names _ _ _ _ _ _ _ _ _ Hnames).
  unfold mbind, M_bind. rewrite (team_exists_answered _ _ _ _ _ _ Hp), Hs. simpl.
  rewrite (add_teams_to_repos_batch fuel _ _ _ _ _ served rest
             (advance w (served ++ rest) _) Hlen Hall eq_refl).
  now rewrite advance_advance.
Qed.

(** ** Further properties: listing and report *)

Lemma advance_nothing w : advance w (pending w) [] = w.
Proof. destruct w. unfold advance. simpl. now rewrite app_nil_r. Qed.

Lemma list_all_repos_loop_error fuel token url u repos w r rest :
  given url = Some u -> pending w = r :: rest -> error_status r = true ->
  list_all_repos_loop (S fuel) token url repos w
  = (Raise (HTTPError r), advance w rest [Sent (page_request token u)]).
Proof.
  intros Hu Hp He. cbn [list_all_repos_loop]. rewrite Hu.
  unfold requests_get, mbind at 1, M_bind at 1.
  fold (page_request token u). rewrite (send_answered _ _ _ _ Hp).
  now rewrite (raise_for_status_error _ He).
Qed.

(** X9: [list_all_repos] gives all pages or nothing: when a page request is
    answered with an error status, after any number of pages served and
    followed, it raises [HTTPError] for that response and returns none of
    the names already read; the following pages are not requested. *)
Theorem list_all_repos_error_page fuel org token rs urls bad rest w :
  linked rs urls ->
  pending w = rs ++ bad :: rest -> error_status bad = true ->
  (length rs < fuel)%nat ->
  list_all_repos fuel org token w
  = (Raise (HTTPError bad),
     advance w rest
       (map (fun url => Sent (page_request token url)) (org_repos_url org :: urls))).
Proof.
  intros Hl Hp He Hf.
  assert (Hloop : forall fuel url u repos w,
            given url = Some u -> pending w = rs ++ bad :: rest ->
            (length rs < fuel)%nat ->
            list_all_repos_loop fuel token url repos w
            = (Raise (HTTPError bad),
               advance w rest
                 (map (fun v => Sent (page_request token v)) (u :: urls)))).
  { clear fuel w Hp Hf.
    induction Hl as [|r items next rs urls Hok Hj Hnext _ IH];
      intros [|fuel] url u repos w Hu Hp Hf; try (simpl in Hf; lia).
    - exact (list_all_repos_loop_error _ _ _ _ _ _ _ _ Hu Hp He).
    - rewrite (list_all_repos_loop_page _ _ _ _ _ _ _ _ _ Hu Hp Hok Hj).
      rewrite (IH fuel _ next _ (advance w (rs ++ bad :: rest) _) Hnext eq_refl);
        [|simpl in Hf; lia].
      now rewrite advance_advance. }
  unfold list_all_repos, mbind, M_bind.
  now rewrite (Hloop fuel (Some (org_repos_url org)) (org_repos_url org) [] w
                 eq_refl Hp Hf).
Qed.

Lemma map_each_name_missing good names fields more w :
  Forall2 named good names -> assoc "name" fields = None ->
  map_each (fun repo => subscript repo "name") (good ++ JObj fields :: more) w
  = (Raise (KeyError "name"), w).
Proof.
  intros Hgood Hmissing.
  induction Hgood as [|item name items names (fs & -> & Hname) _ IH]; simpl.
  - unfold mbind, M_bind. now rewrite Hmissing.
  - unfold mbind at 1, M_bind at 1. rewrite Hname. simpl.
    unfold mbind at 1, M_bind at 1. now rewrite IH.
Qed.

(** X10: when the pages have all been fetched and one of the objects they
    hold has no ["name"], [list_all_repos] raises [KeyError] for it and
    returns no name at all, also not those of the objects before it. *)
Theorem repository_without_name_raises fuel org token w w1 good names fields more :
  list_all_repos_loop fuel token (Some (org_repos_url org)) [] w
  = (Ret (good ++ JObj fields :: more), w1) ->
  Forall2 named good names -> assoc "name" fields = None ->
  list_all_repos fuel org token w = (Raise (KeyError "name"), w1).
Proof.
  intros Hloop Hgood Hmissing. unfold list_all_repos, mbind, M_bind.
  rewrite Hloop. now apply map_each_name_missing with (names := names).
Qed.

Lemma report_team repo_name fields name role w :
  assoc "name" fields = Some name -> assoc "permission" fields = Some role ->
  (name ← subscript (JObj fields) "name";
   role ← subscript (JObj fields) "permission";
   logging INFO (TeamRole name role);;
   name' ← subscript (JObj fields) "name";
   role' ← subscript (JObj fields) "permission";
   writerow [repo_name; name'; role']) w
  = (Ret tt,
     advance w (pending w)
       [Logged INFO (TeamRole name role); WroteRow [repo_name; name; role]]).
Proof.
  intros Hn Hr. unfold mbind, M_bind, subscript. rewrite Hn, Hr.
  unfold mret, M_ret, logging, writerow. now rewrite !emit_advance, advance_advance.
Qed.

Lemma for_each_teams repo_name teams roles w :
  Forall2 has_role teams roles ->
  for_each teams
    (fun team =>
       name ← subscript team "name";
       role ← subscript team "permission";
       logging INFO (TeamRole name role);;
       name' ← subscript team "name";
       role' ← subscript team "permission";
       writerow [repo_name; name'; role']) w
  = (Ret tt, advance w (pending w) (team_events repo_name roles)).
Proof.
  intros H. revert w.
  induction H as [|team [name role] teams roles (fields & -> & Hn & Hr) _ IH];
    intros w.
  - simpl. now rewrite advance_nothing.
  - simpl in Hn, Hr. cbn [for_each]. unfold mbind at 1, M_bind at 1. cbv beta.
    rewrite (report_team repo_name fields name role w Hn Hr).
    now rewrite IH, advance_advance.
Qed.


Lemma for_each_teams_stops repo_name good roles bad teams e w :
  Forall2 has_role good roles ->
  (forall w', (name ← subscript bad "name";
               role ← subscript bad "permission";
               logging INFO (TeamRole name role);;
               name' ← subscript bad "name";
               role' ← subscript bad "permission";
               writerow [repo_name; name'; role']) w' = (Raise e, w')) ->
  for_each (good ++ bad :: teams)
    (fun team =>
       name ← subscript team "name";
       role ← subscript team "permission";
       logging INFO (TeamRole name role);;
       name' ← subscript team "name";
       role' ← subscript team "permission";
       writerow [repo_name; name'; role']) w
  = (Raise e, advance w (pending w) (team_events repo_name roles)).
Proof.
  intros H Hbad. revert w.
  induction H as [|team [name role] good roles (fields & -> & Hn & Hr) _ IH];
    intros w.
  - cbn [app for_each]. unfold mbind at 1, M_bind at 1. cbv beta.
    rewrite Hbad. simpl. now rewrite advance_nothing.
  - simpl in Hn, Hr. cbn [app for_each]. unfold mbind at 1, M_bind at 1. cbv beta.
    rewrite (report_team repo_name fields name role w Hn Hr).
    now rewrite IH, advance_advance.
Qed.

Lemma report_repo_stops org token repo_name w r rest good roles bad teams e :
  pending w = r :: rest -> error_status r = false ->
  json_body r = Some (JArr (good ++ bad :: teams)) ->
  Forall2 has_role good roles ->
  (forall w', (name ← subscript bad "name";
               role ← subscript bad "permission";
               logging INFO (TeamRole name role);;
               name' ← subscript bad "name";
               role' ← subscript bad "permission";
               writerow [repo_name; name'; role']) w' = (Raise e, w')) ->
  (forall r', e <> HTTPError r') ->
  report_repo org token repo_name w
  = (Raise e,
     advance w rest
       (Sent (teams_request org token repo_name)
        :: Logged INFO (TeamsAssociated repo_name)
        :: team_events repo_name roles)).
Proof.
  intros Hp He Hj Hgood Hbad Hother. unfold report_repo, except_HTTPError.
  unfold mbind at 1, M_bind at 1.
  rewrite (list_teams_for_repo_answered _ _ _ _ _ _ Hp).
  rewrite (raise_for_status_pass _ He).
  unfold response_json. rewrite Hj.
  unfold mbind at 1, M_bind at 1, mret at 1, M_ret at 1.
  unfold mret at 1, M_ret at 1.
  replace (truthy (JArr (good ++ bad :: teams))) with true
    by (now destruct good).
  unfold mbind at 1, M_bind at 1, logging at 1. rewrite emit_advance.
  unfold mbind at 1, M_bind at 1, py_iter, mret at 1, M_ret at 1.
  rewrite (for_each_teams_stops _ _ _ _ _ _ _ Hgood Hbad).
  rewrite !advance_advance. destruct e; try reflexivity.
  now destruct (Hother r0).
Qed.


(** ** Further properties: what the commands send and do *)

Lemma emits_with_open_w {A : Type} (P : event -> Prop) path (body : M A) :
  P (Opened path) -> P (Closed path) -> emits P body ->
  emits P (with_open_w path body).
Proof.
  intros Ho Hc Hb w. unfold with_open_w.
  destruct (unwritable w !! path);
    [exists []; rewrite app_nil_r; split; [reflexivity | constructor]|].
  rewrite emit_advance.
  destruct (Hb (advance w (pending w) [Opened path])) as (evs & Ht & Hall).
  destruct (body _) as [res w2]. simpl in Ht |- *.
  exists ([Opened path] ++ evs ++ [Closed path]).
  rewrite Ht, <- !app_assoc. split; [reflexivity|].
  repeat (apply Forall_app; split); auto.
Qed.

Lemma emits_raise_for_status (P : event -> Prop) r : emits P (raise_for_status r).
Proof.
  unfold raise_for_status. destruct (_ && _)%bool; [apply emits_raise | apply emits_mret].
Qed.

Lemma emits_response_json (P : event -> Prop) r : emits P (response_json r).
Proof.
  unfold response_json. destruct (json_body r); [apply emits_mret | apply emits_raise].
Qed.

Lemma emits_py_iter (P : event -> Prop) v : emits P (py_iter v).
Proof. destruct v; simpl; (apply emits_mret || apply emits_raise). Qed.

Lemma emits_subscript (P : event -> Prop) v key : emits P (subscript v key).
Proof.
  destruct v; simpl; try apply emits_raise.
  destruct (assoc key fields); [apply emits_mret | apply emits_raise].
Qed.

Lemma emits_list_all_repos (P : event -> Prop) fuel org token :
  (forall url, P (Sent (page_request token url))) ->
  emits P (list_all_repos fuel org token).
Proof.
  intros HP. unfold list_all_repos. apply emits_bind.
  - generalize (Some (org_repos_url org)) as url. generalize (@nil json) as repos.
    induction fuel as [|fuel IH]; intros repos url; simpl;
      destruct (given url) as [u|]; try apply emits_mret; [apply emits_out_of_fuel|].
    apply emits_bind; [apply emits_send, HP | intros r].
    apply emits_bind; [apply emits_raise_for_status | intros _].
    apply emits_bind; [apply emits_response_json | intros page].
    apply emits_bind; [apply emits_py_iter | intros items]. apply IH.
  - intros repos. apply emits_map_each. intros repo. apply emits_subscript.
Qed.

Lemma emits_report_repo (P : event -> Prop) org token repo_name :
  P (Sent (teams_request org token repo_name)) ->
  (forall lvl msg, P (Logged lvl msg)) -> (forall row, P (WroteRow row)) ->
  emits P (report_repo org token repo_name).
Proof.
  intros Hs Hl Hr. unfold report_repo. apply emits_except_HTTPError.
  - apply emits_bind.
    + unfold list_teams_for_repo, requests_get.
      apply emits_bind; [apply emits_send, Hs | intros r].
      apply emits_bind; [apply emits_raise_for_status | intros _].
      apply emits_response_json.
    + intros teams. destruct (truthy teams); [|apply emits_emit, Hl].
      apply emits_bind; [apply emits_emit, Hl | intros _].
      apply emits_bind; [apply emits_py_iter | intros items].
      apply emits_for_each. intros team.
      apply emits_bind; [apply emits_subscript | intros name].
      apply emits_bind; [apply emits_subscript | intros role].
      apply emits_bind; [apply emits_emit, Hl | intros _].
      apply emits_bind; [apply emits_subscript | intros name'].
      apply emits_bind; [apply emits_subscript | intros role'].
      apply emits_emit, Hr.
  - intros r. apply emits_emit, Hl.
Qed.

Lemma emits_write_teams_to_csv (P : event -> Prop) fuel org token csv_filename :
  (forall rq, req_method rq = GET -> req_json rq = None ->
              req_headers rq = headers token -> P (Sent rq)) ->
  (forall lvl msg, P (Logged lvl msg)) -> (forall row, P (WroteRow row)) ->
  P (Opened csv_filename) -> P (Closed csv_filename) ->
  emits P (write_teams_to_csv fuel org token csv_filename).
Proof.
  intros Hs Hl Hr Ho Hc. unfold write_teams_to_csv.
  apply emits_bind; [apply emits_list_all_repos; intros url; now apply Hs | intros repos].
  apply emits_bind; [|intros _; apply emits_emit, Hl].
  apply emits_with_open_w; [exact Ho | exact Hc |].
  apply emits_bind; [apply emits_emit, Hr | intros _].
  apply emits_for_each. intros repo_name.
  apply emits_report_repo; [now apply Hs | exact Hl | exact Hr].
Qed.

Lemma emits_add_teams_to_repos_waits (P : event -> Prop) fuel org token team_slug
    repo_names permission :
  (forall repo_name, P (Sent (grant_request org token team_slug repo_name permission))) ->
  (forall seconds, SFltb seconds float_zero = false -> P (Slept seconds)) ->
  (forall lvl msg, P (Logged lvl msg)) ->
  emits P (add_teams_to_repos fuel org token team_slug repo_names permission).
Proof.
  intros Hs Hw Hl. apply emits_for_each. intros repo_name.
  induction fuel as [|fuel IH]; simpl; [apply emits_out_of_fuel|].
  apply emits_except_HTTPError.
  - apply emits_bind; [|intros _; apply emits_emit, Hl].
    unfold add_team_to_repo, requests_put.
    apply emits_bind; [apply emits_send, Hs | intros r].
    destruct (status_code r =? 204); [apply emits_mret|].
    apply emits_except_JSONDecodeError; [apply emits_response_json|].
    apply emits_bind; [apply emits_raise_for_status | intros _; apply emits_mret].
  - intros r. apply emits_bind.
    + unfold handle_rate_limiting.
      destruct (rate_limited r); [|apply emits_mret].
      destruct (header r _); [|apply emits_raise].
      destruct (py_int _); [|apply emits_raise].
      apply emits_bind; [now apply emits_silent | intros t].
      destruct (float_of_int _); [|apply emits_raise].
      apply emits_bind; [apply emits_emit, Hl | intros _].
      apply emits_bind; [|intros _; apply emits_mret].
      apply emits_time_sleep, Hw, max_zero_not_negative.
    + intros limited. destruct limited; [exact IH | apply emits_emit, Hl].
Qed.

Lemma emits_main (P : event -> Prop) fuel a :
  (forall org token, a = ListTeams org token ->
     forall rq, req_method rq = GET -> req_json rq = None ->
                req_headers rq = headers token -> P (Sent rq)) ->
  (forall org token team_slug repo_name csv_file permission,
     a = AddTeam org token team_slug repo_name csv_file permission ->
     P (Sent (lookup_request org team_slug token))
     /\ forall repo, P (Sent (grant_request org token team_slug repo
                                (api_permission permission)))) ->
  (forall seconds, SFltb seconds float_zero = false -> P (Slept seconds)) ->
  (forall lvl msg, P (Logged lvl msg)) -> (forall row, P (WroteRow row)) ->
  (forall text, P (Printed text)) ->
  (forall path, P (Opened path)) -> (forall path, P (Closed path)) ->
  emits P (main fuel a).
Proof.
  intros Hlist Hadd Hw Hl Hr Hpr Ho Hc.
  destruct a as [org token|org token team_slug repo_name csv_file permission]; simpl.
  - apply emits_write_teams_to_csv; auto. exact (Hlist org token eq_refl).
  - destruct (Hadd _ _ _ _ _ _ eq_refl) as [Hlookup Hgrant].
    apply emits_bind; [apply emits_repo_names_of_args, Hl | intros names].
    apply emits_bind.
    + unfold team_exists, requests_get.
      apply emits_bind; [apply emits_send, Hlookup | intros r; apply emits_mret].
    + intros found. destruct found; [|apply emits_emit, Hpr].
      now apply emits_add_teams_to_repos_waits.
Qed.

(** X13: every request of either command carries the headers built from
    the token: the page requests (also those to a "next" URL the server
    named), the teams requests, the team lookup and the grants. *)
Theorem every_request_authenticated fuel :
  (forall org token, emits (authenticated token) (main fuel (ListTeams org token)))
  /\ (forall org token team_slug repo_name csv_file permission,
        emits (authenticated token)
          (main fuel (AddTeam org token team_slug repo_name csv_file permission))).
Proof.
  split; intros; apply emits_main; simpl; auto.
  - intros org' token' Heq rq _ _ Hh. now injection Heq as <- <-.
  - discriminate.
  - discriminate.
  - intros ? ? ? ? ? ? Heq. injection Heq as <- <- <- _ _ <-. now split.
Qed.

(** X14: the list-teams command only reads: every request it sends is a GET
    without payload, and it never sleeps. *)
Theorem list_teams_is_read_only fuel org token :
  emits read_only (main fuel (ListTeams org token)).
Proof.
  simpl. apply emits_write_teams_to_csv; simpl; auto.
Qed.

(** X15: whatever the command and the responses, no sleep is negative:
    [time.sleep] is only given [max(0, ...)]. *)
Theorem sleeps_never_negative fuel a : emits rests (main fuel a).
Proof.
  apply emits_main; simpl; auto.
Qed.

Lemma write_teams_to_csv_listed fuel org token csv_filename w repos w1 :
  list_all_repos fuel org token w = (Ret repos, w1) ->
  unwritable w1 !! csv_filename = None ->
  write_teams_to_csv fuel org token csv_filename w
  = finish_report csv_filename
      (for_each repos (report_repo org token)
         (advance w1 (pending w1) [Opened csv_filename; WroteRow csv_header])).
Proof.
  intros H Hopen. unfold write_teams_to_csv, mbind at 1, M_bind at 1. rewrite H.
  unfold mbind at 1, M_bind at 1, with_open_w. rewrite Hopen, emit_advance.
  unfold mbind at 1, M_bind at 1, writerow. rewrite emit_advance, advance_advance.
  cbn [pending advance app]. unfold finish_report.
  destruct (for_each repos _ _) as [[[]|e|] w2]; simpl; try reflexivity.
  unfold logging, emit, advance. simpl. now rewrite <- app_assoc.
Qed.

Lemma write_teams_to_csv_unopened fuel org token csv_filename w repos w1 e :
  list_all_repos fuel org token w = (Ret repos, w1) ->
  unwritable w1 !! csv_filename = Some e ->
  write_teams_to_csv fuel org token csv_filename w = (Raise e, w1).
Proof.
  intros H Hopen. unfold write_teams_to_csv, mbind at 1, M_bind at 1. rewrite H.
  unfold mbind at 1, M_bind at 1, with_open_w. now rewrite Hopen.
Qed.

(** ** The report run *)

Lemma report_repo_teams org token repo_name w r rest team teams roles :
  pending w = r :: rest -> error_status r = false ->
  json_body r = Some (JArr (team :: teams)) ->
  Forall2 has_role (team :: teams) roles ->
  report_repo org token repo_name w
  = (Ret tt,
     advance w rest
       (Sent (teams_request org token repo_name)
        :: Logged INFO (TeamsAssociated repo_name)
        :: team_events repo_name roles)).
Proof.
  intros Hp He Hj Hroles. unfold report_repo, except_HTTPError.
  unfold mbind at 1, M_bind at 1.
  rewrite (list_teams_for_repo_answered _ _ _ _ _ _ Hp).
  rewrite (raise_for_status_pass _ He).
  unfold response_json. rewrite Hj.
  unfold mbind at 1, M_bind at 1, mret at 1, M_ret at 1.
  unfold mret at 1, M_ret at 1. cbn [truthy].
  unfold mbind at 1, M_bind at 1, logging at 1. rewrite emit_advance.
  unfold mbind at 1, M_bind at 1, py_iter, mret at 1, M_ret at 1.
  rewrite (for_each_teams _ _ _ _ Hroles).
  now rewrite !advance_advance.
Qed.

Lemma report_repo_nothing org token repo_name w r rest teams :
  pending w = r :: rest -> error_status r = false ->
  json_body r = Some teams -> truthy teams = false ->
  report_repo org token repo_name w
  = (Ret tt,
     advance w rest
       [Sent (teams_request org token repo_name);
        Logged INFO (NoTeamsAssociated repo_name)]).
Proof.
  intros Hp He Hj Hfalsy. unfold report_repo, except_HTTPError.
  unfold mbind at 1, M_bind at 1.
  rewrite (list_teams_for_repo_answered _ _ _ _ _ _ Hp).
  rewrite (raise_for_status_pass _ He).
  unfold response_json. rewrite Hj.
  unfold mbind at 1, M_bind at 1, mret at 1, M_ret at 1.
  unfold mret at 1, M_ret at 1. rewrite Hfalsy.
  unfold logging. now rewrite emit_advance, advance_advance.
Qed.

Lemma for_each_reports org token repo_names served evs :
  reports org token repo_names served evs ->
  forall later rest w,
    pending w = served ++ rest ->
    for_each (repo_names ++ later) (report_repo org token) w
    = for_each later (report_repo org token) (advance w rest evs).
Proof.
  induction 1 as [|repo_name repo_names r served team teams roles evs He Hj Hroles _ IH
                  |repo_name repo_names r served teams evs He Hj Hfalsy _ IH
                  |repo_name repo_names r served evs He _ IH];
    intros later rest w Hp.
  - simpl in Hp. simpl app. rewrite <- Hp. now rewrite advance_nothing.
  - simpl app.
    rewrite (for_each_next _ _ _ _ _
               (report_repo_teams _ _ _ _ _ _ _ _ _ Hp He Hj Hroles)).
    rewrite (IH later rest (advance w (served ++ rest) _) eq_refl).
    now rewrite advance_advance.
  - simpl app.
    rewrite (for_each_next _ _ _ _ _
               (report_repo_nothing _ _ _ _ _ _ _ Hp He Hj Hfalsy)).
    rewrite (IH later rest (advance w (served ++ rest) _) eq_refl).
    now rewrite advance_advance.
  - simpl app.
    rewrite (for_each_next _ _ _ _ _ (report_repo_failed _ _ _ _ _ _ Hp He)).
    rewrite (IH later rest (advance w (served ++ rest) _) eq_refl).
    now rewrite advance_advance.
Qed.


(** X16: the report opens its file only after the listing has succeeded: a
    listing that raises leaves the file untouched.  When [open] raises, the
    report ends with that exception and nothing is written or fetched.
    Otherwise the header is the first row and the file is closed exactly
    once however the loop over the repositories ends; the final log record
    is written only when the run completes. *)
Theorem report_file_opened_and_closed_once fuel org token csv_filename w :
  (forall e w1,
     list_all_repos fuel org token w = (Raise e, w1) ->
     write_teams_to_csv fuel org token csv_filename w = (Raise e, w1))
  /\ (forall repos w1 e,
        list_all_repos fuel org token w = (Ret repos, w1) ->
        unwritable w1 !! csv_filename = Some e ->
        write_teams_to_csv fuel org token csv_filename w = (Raise e, w1))
  /\ (forall repos w1,
        list_all_repos fuel org token w = (Ret repos, w1) ->
        unwritable w1 !! csv_filename = None ->
        exists evs,
          Forall report_event evs
          /\ trace (snd (write_teams_to_csv fuel org token csv_filename w))
             = trace w1
               ++ Opened csv_filename :: WroteRow csv_header :: evs
               ++ Closed csv_filename
                  :: match fst (write_teams_to_csv fuel org token csv_filename w) with
                     | Ret _ => [Logged INFO (CsvReportGenerated csv_filename)]
                     | _ => []
                     end).
Proof.
  split; [|split].
  - intros e w1 H. unfold write_teams_to_csv, mbind at 1, M_bind at 1. now rewrite H.
  - intros repos w1 e H Hopen. exact (write_teams_to_csv_unopened _ _ _ _ _ _ _ _ H Hopen).
  - intros repos w1 H Hopen.
    assert (Hloop : emits report_event (for_each repos (report_repo org token))).
    { apply emits_for_each. intros repo_name. apply emits_report_repo; simpl; auto. }
    rewrite (write_teams_to_csv_listed _ _ _ csv_filename _ _ _ H Hopen).
    destruct (Hloop (advance w1 (pending w1)
                       [Opened csv_filename; WroteRow csv_header]))
      as (evs & Ht & Hall).
    exists evs. split; [exact Hall|].
    destruct (for_each repos _ _) as [[[]|e|] w2]; simpl in Ht |- *;
      rewrite Ht, <- !app_assoc; reflexivity.
Qed.

End Script.

(** ** The model on concrete servers *)

Lemma team_exists_iff_status_200_witness :
  pending (world_of 0 [reply 404 (Some not_found_message)])
  = [reply 404 (Some not_found_message)]
  /\ fst (team_exists "acme" "backend" "t0ken"
            (world_of 0 [reply 404 (Some not_found_message)]))
     = Ret false.
Proof.
  split; [reflexivity|].
  destruct (team_exists_iff_status_200 "acme" "backend" "t0ken"
              (world_of 0 [reply 404 (Some not_found_message)])
              (reply 404 (Some not_found_message)) [] eq_refl)
    as (found & Hrun & _ & Hfalse).
  rewrite Hrun. simpl. f_equal. apply Hfalse. simpl. auto.
Defined.

Lemma add_team_to_repo_outcome_witness :
  pending (world_of 0 [reply 500 None]) = [reply 500 None]
  /\ fst (add_team_to_repo "acme" "t0ken" "backend" "api" "pull"
            (world_of 0 [reply 500 None]))
     = Raise (HTTPError (reply 500 None)).
Proof.
  split; [reflexivity|].
  destruct (add_team_to_repo_outcome "acme" "t0ken" "backend" "api" "pull"
              (world_of 0 [reply 500 None]) (reply 500 None) [] eq_refl)
    as (_ & _ & Hraise).
  apply Hraise; simpl; [lia | reflexivity | lia].
Defined.

(** A 200 whose body does not decode: no error is raised, the function
    returns [None]. *)
Lemma add_team_to_repo_unparseable_200 :
  status_code (reply 200 None) <> 204
  /\ json_body (reply 200 None) = None
  /\ fst (add_team_to_repo "acme" "t0ken" "backend" "api" "pull"
            (world_of 0 [reply 200 None]))
     = Ret JNull
  /\ forall e,
       fst (add_team_to_repo "acme" "t0ken" "backend" "api" "pull"
              (world_of 0 [reply 200 None]))
       <> Raise e.
Proof.
  split; [discriminate | split; [reflexivity | split; [reflexivity|]]].
  intros e. discriminate.
Qed.

Lemma empty_row_raises_IndexError_witness :
  files (world_with_file "repos.csv" [["api"]; []; ["web"]] []) !! "repos.csv"
  = Some [["api"]; []; ["web"]]
  /\ In [] [["api"]; []; ["web"]]
  /\ get_repo_names_from_csv "repos.csv"
       (world_with_file "repos.csv" [["api"]; []; ["web"]] [])
     = (Raise IndexError, world_with_file "repos.csv" [["api"]; []; ["web"]] []).
Proof.
  assert (Hfile : files (world_with_file "repos.csv" [["api"]; []; ["web"]] [])
                  !! "repos.csv" = Some [["api"]; []; ["web"]])
    by (vm_compute; reflexivity).
  assert (Hin : In ([] : list string) [["api"]; []; ["web"]])
    by (simpl; auto).
  split; [exact Hfile | split; [exact Hin|]].
  exact (empty_row_raises_IndexError "repos.csv" _ _ Hfile Hin).
Defined.

Lemma json_error_body_logged_as_success_witness :
  pending (world_of 0 [reply 404 (Some not_found_message); reply 204 None])
  = [reply 404 (Some not_found_message); reply 204 None]
  /\ status_code (reply 404 (Some not_found_message)) <> 204
  /\ add_teams_to_repos decimal_int 1 "acme" "t0ken" "backend" ["api"; "web"] "pull"
       (world_of 0 [reply 404 (Some not_found_message); reply 204 None])
     = (Ret tt,
        advance (world_of 0 []) []
          [Sent (grant_request "acme" "t0ken" "backend" "api" "pull");
           Logged INFO (TeamAdded "backend" "api" "pull");
           Sent (grant_request "acme" "t0ken" "backend" "web" "pull");
           Logged INFO (TeamAdded "backend" "web" "pull")]).
Proof.
  assert (Hs : status_code (reply 404 (Some not_found_message)) <> 204)
    by discriminate.
  split; [reflexivity | split; [exact Hs|]].
  rewrite (json_error_body_logged_as_success decimal_int 0 "acme" "t0ken" "backend"
             "api" ["web"] "pull"
             (world_of 0 [reply 404 (Some not_found_message); reply 204 None])
             (reply 404 (Some not_found_message)) [reply 204 None]
             not_found_message eq_refl Hs eq_refl).
  reflexivity.
Defined.

Lemma failure_does_not_abort_batch_witness :
  pending (world_of 0 [reply 500 None; reply 204 None])
  = [reply 500 None; reply 204 None]
  /\ rate_limited (reply 500 None) = false
  /\ add_teams_to_repos decimal_int 1 "acme" "t0ken" "backend" ["api"; "web"] "pull"
       (world_of 0 [reply 500 None; reply 204 None])
     = (Ret tt,
        advance (world_of 0 [reply 500 None; reply 204 None]) []
          [Sent (grant_request "acme" "t0ken" "backend" "api" "pull");
           Logged ERROR (AddTeamFailed "api" (HTTPError (reply 500 None)));
           Sent (grant_request "acme" "t0ken" "backend" "web" "pull");
           Logged INFO (TeamAdded "backend" "web" "pull")]).
Proof.
  split; [reflexivity | split; [reflexivity|]].
  apply (failure_does_not_abort_batch decimal_int 0 "acme" "t0ken" "backend"
           "api" "web" "pull"
           (world_of 0 [reply 500 None; reply 204 None])
           (reply 500 None) (reply 204 None) []);
    simpl; try reflexivity; lia.
Defined.

Lemma team_checked_once_before_grants_witness :
  repo_names_of_args (Some "api") None (world_of 0 [reply 404 (Some not_found_message)])
  = (Ret ["api"], world_of 0 [reply 404 (Some not_found_message)])
  /\ trace (snd (main decimal_int plain_str 1
                   (AddTeam "acme" "t0ken" "backend" (Some "api") None "read")
                   (world_of 0 [reply 404 (Some not_found_message)])))
     = [Sent (lookup_request "acme" "backend" "t0ken");
        Printed "Team 'backend' does not exist in organization 'acme'."].
Proof.
  split; [reflexivity|].
  destruct (team_checked_once_before_grants decimal_int plain_str 1
              "acme" "t0ken" "backend" (Some "api") None "read" ["api"]
              (world_of 0 [reply 404 (Some not_found_message)]) eq_refl)
    as (evs & Htrace & _ & _ & Hmissing).
  rewrite Htrace.
  rewrite (Hmissing (reply 404 (Some not_found_message)) [] eq_refl);
    [reflexivity | discriminate].
Defined.

Lemma list_all_repos_concatenates_pages_witness :
  listing
    [page_reply [repo_object 1 "a"; repo_object 2 "b"] (Some page_2);
     page_reply [repo_object 3 "c"] None]
    [[JStr "a"; JStr "b"]; [JStr "c"]]
    [page_2]
  /\ fst (list_all_repos 2 "acme" "t0ken"
            (world_of 0 [page_reply [repo_object 1 "a"; repo_object 2 "b"] (Some page_2);
                         page_reply [repo_object 3 "c"] None]))
     = Ret [JStr "a"; JStr "b"; JStr "c"].
Proof.
  assert (Hl : listing
                 [page_reply [repo_object 1 "a"; repo_object 2 "b"] (Some page_2);
                  page_reply [repo_object 3 "c"] None]
                 [[JStr "a"; JStr "b"]; [JStr "c"]]
                 [page_2]).
  { apply listing_next; [| vm_compute; reflexivity | apply listing_last].
    - split; [reflexivity|]. eexists. split; [reflexivity|].
      repeat constructor; eexists; split; reflexivity.
    - split; [reflexivity|]. eexists. split; [reflexivity|].
      repeat constructor; eexists; split; reflexivity.
    - vm_compute; reflexivity. }
  split; [exact Hl|].
  rewrite (list_all_repos_concatenates_pages 2 "acme" "t0ken"
             (world_of 0 [page_reply [repo_object 1 "a"; repo_object 2 "b"] (Some page_2);
                          page_reply [repo_object 3 "c"] None])
             _ _ _ [] Hl);
    [reflexivity | reflexivity | simpl; lia].
Defined.



(** C1, on GitHub's own rate-limit response: a 403 with no quota left, a
    reset time and the JSON body GitHub sends, followed by a 204.  The bulk
    grant does not sleep and does not send the request again: it logs the
    repository as done after the 403 and never reads the 204. *)
Theorem rate_limit_with_json_body_not_retried :
  rate_limited (rate_limit_reply "1700000000" (Some rate_limit_message)) = true
  /\ add_teams_to_repos decimal_int 2 "acme" "t0ken" "backend" ["api"] "pull"
       (world_of 0 [rate_limit_reply "1700000000" (Some rate_limit_message);
                    reply 204 None])
     = (Ret tt,
        advance (world_of 0 []) [reply 204 None]
          [Sent (grant_request "acme" "t0ken" "backend" "api" "pull");
           Logged INFO (TeamAdded "backend" "api" "pull")]).
Proof.
  split; [vm_compute; reflexivity|].
  reflexivity.
Qed.

(** The same exchange when the 403 has a body that does not decode: the
    retry is taken, after a sleep of ten seconds. *)
Lemma rate_limit_without_json_body_retried :
  add_teams_to_repos decimal_int 2 "acme" "t0ken" "backend" ["api"] "pull"
    (world_of 1699999990 [rate_limit_reply "1700000000" None; reply 204 None])
  = (Ret tt,
     advance_clock (world_of 1699999990 []) (clock_at 10) []
       [Sent (grant_request "acme" "t0ken" "backend" "api" "pull");
        Logged WARNING (RateLimitExceeded (clock_at 10));
        Slept (clock_at 10);
        Sent (grant_request "acme" "t0ken" "backend" "api" "pull");
        Logged INFO (TeamAdded "backend" "api" "pull")]).
Proof.
  rewrite (rate_limit_retry_unparseable decimal_int 0 "acme" "t0ken" "backend" "api"
             "pull"
             (world_of 1699999990 [rate_limit_reply "1700000000" None; reply 204 None])
             (rate_limit_reply "1700000000" None) (reply 204 None) []
             "1700000000" 1700000000 (clock_at 1700000000));
    vm_compute; reflexivity.
Qed.

(** [float(n)] rounds a large integer to the nearest double and fails beyond
    the doubles. *)
Example float_of_int_rounds :
  float_of_int (10 ^ 17 + 1) = float_of_int (10 ^ 17)
  /\ float_of_int (10 ^ 400) = None.
Proof. split; vm_compute; reflexivity. Qed.

(** A reset time so far away that the wait is longer than the platform
    accepts: [time.sleep] raises [OverflowError] and the batch ends. *)
Example rate_limit_wait_too_long :
  add_teams_to_repos decimal_int 2 "acme" "t0ken" "backend" ["api"; "web"] "pull"
    (world_of 1699999990
       [rate_limit_reply "100000000000000001" None; reply 204 None])
  = (Raise OverflowError,
     advance (world_of 1699999990 []) [reply 204 None]
       [Sent (grant_request "acme" "t0ken" "backend" "api" "pull");
        Logged WARNING
          (RateLimitExceeded
             (max_zero (float_sub (clock_at 100000000000000000)
                                  (clock_at 1699999990))));
        Slept (max_zero (float_sub (clock_at 100000000000000000)
                                   (clock_at 1699999990)))]).
Proof. vm_compute. reflexivity. Qed.

(** A whole [list-teams] run: two pages of repositories, then one teams
    request per repository; the second has no team and the third fails. *)
Example list_teams_run :
  main decimal_int plain_str 2 (ListTeams "acme" "t0ken")
    (world_of 0
       [page_reply [repo_object 1 "a"; repo_object 2 "b"] (Some page_2);
        page_reply [repo_object 3 "c"] None;
        reply 200 (Some (JArr [team_object "X" "push"]));
        reply 200 (Some (JArr []));
        reply 500 None])
  = (Ret tt,
     advance (world_of 0 []) []
       [Sent (page_request "t0ken" "https://api.github.com/orgs/acme/repos");
        Sent (page_request "t0ken" page_2);
        Opened "acme_teams_roles.csv";
        WroteRow [JStr "Repository"; JStr "Team"; JStr "Role"];
        Sent (teams_request plain_str "acme" "t0ken" (JStr "a"));
        Logged INFO (TeamsAssociated (JStr "a"));
        Logged INFO (TeamRole (JStr "X") (JStr "push"));
        WroteRow [JStr "a"; JStr "X"; JStr "push"];
        Sent (teams_request plain_str "acme" "t0ken" (JStr "b"));
        Logged INFO (NoTeamsAssociated (JStr "b"));
        Sent (teams_request plain_str "acme" "t0ken" (JStr "c"));
        Logged ERROR (ListTeamsFailed (JStr "c") (HTTPError (reply 500 None)));
        Closed "acme_teams_roles.csv";
        Logged INFO (CsvReportGenerated "acme_teams_roles.csv")]).
Proof. vm_compute. reflexivity. Qed.

(** A whole [add-team] run from a CSV file, with write permission. *)
Example add_team_run :
  main decimal_int plain_str 1
    (AddTeam "acme" "t0ken" "backend" None (Some "repos.csv") "write")
    (world_with_file "repos.csv" [["api"; "x"]; ["web"]]
       [reply 200 None; reply 204 None; reply 204 None])
  = (Ret tt,
     advance (world_with_file "repos.csv" [["api"; "x"]; ["web"]] []) []
       [Sent (lookup_request "acme" "backend" "t0ken");
        Sent (grant_request "acme" "t0ken" "backend" "api" "push");
        Logged INFO (TeamAdded "backend" "api" "push");
        Sent (grant_request "acme" "t0ken" "backend" "web" "push");
        Logged INFO (TeamAdded "backend" "web" "push")]).
Proof. vm_compute. reflexivity. Qed.

(** Neither [--repo-name] nor [--csv-file]: the error is logged and the
    command exits with status 1 before any request. *)
Example add_team_without_source :
  main decimal_int plain_str 1 (AddTeam "acme" "t0ken" "backend" None None "read")
    (world_of 0 [reply 200 None])
  = (Raise (SystemExit 1),
     advance (world_of 0 []) [reply 200 None] [Logged ERROR RepoSourceMissing]).
Proof. vm_compute. reflexivity. Qed.

(** ** The further properties on concrete servers *)

Lemma csv_first_column_in_order_witness :
  Forall (fun row : list string => row <> []) [["api"; "x"]; ["web"]]
  /\ get_repo_names_from_csv "repos.csv"
       (world_with_file "repos.csv" [["api"; "x"]; ["web"]] [])
     = (Ret ["api"; "web"], world_with_file "repos.csv" [["api"; "x"]; ["web"]] []).
Proof.
  assert (Hrows : Forall (fun row : list string => row <> [])
                    [["api"; "x"]; ["web"]])
    by (repeat constructor; discriminate).
  split; [exact Hrows|].
  apply (csv_first_column_in_order "repos.csv" [["api"; "x"]; ["web"]]
           (world_with_file "repos.csv" [["api"; "x"]; ["web"]] []));
    [vm_compute; reflexivity | exact Hrows].
Defined.


Lemma unreadable_reset_aborts_batch_witness :
  rate_limited (quota_reply None) = true
  /\ header (quota_reply None) "X-RateLimit-Reset" = None
  /\ add_teams_to_repos decimal_int 1 "acme" "t0ken" "backend" ["api"; "web"] "pull"
       (world_of 0 [quota_reply None; reply 204 None])
     = (Raise (KeyError "x-ratelimit-reset"),
        advance (world_of 0 [quota_reply None; reply 204 None]) [reply 204 None]
          [Sent (grant_request "acme" "t0ken" "backend" "api" "pull")]).
Proof.
  assert (Hl : rate_limited (quota_reply None) = true) by (vm_compute; reflexivity).
  assert (Hh : header (quota_reply None) "X-RateLimit-Reset" = None)
    by (vm_compute; reflexivity).
  split; [exact Hl | split; [exact Hh|]].
  destruct (unreadable_reset_aborts_batch decimal_int 0 "acme" "t0ken" "backend"
              "api" ["web"] "pull"
              (world_of 0 [quota_reply None; reply 204 None])
              (quota_reply None) [reply 204 None] eq_refl eq_refl Hl)
    as (Hmissing & _ & _).
  exact (Hmissing Hh).
Defined.

Lemma batch_one_request_per_repository_witness :
  Forall (fun r => rate_limited r = false)
    [reply 204 None; reply 404 (Some not_found_message); reply 500 None]
  /\ add_teams_to_repos decimal_int 1 "acme" "t0ken" "backend"
       ["api"; "web"; "docs"] "pull"
       (world_of 0 [reply 204 None; reply 404 (Some not_found_message);
                    reply 500 None])
     = (Ret tt,
        advance (world_of 0 []) []
          [Sent (grant_request "acme" "t0ken" "backend" "api" "pull");
           Logged INFO (TeamAdded "backend" "api" "pull");
           Sent (grant_request "acme" "t0ken" "backend" "web" "pull");
           Logged INFO (TeamAdded "backend" "web" "pull");
           Sent (grant_request "acme" "t0ken" "backend" "docs" "pull");
           Logged ERROR (AddTeamFailed "docs" (HTTPError (reply 500 None)))]).
Proof.
  assert (Hall : Forall (fun r => rate_limited r = false)
                   [reply 204 None; reply 404 (Some not_found_message);
                    reply 500 None])
    by (repeat constructor).
  split; [exact Hall|].
  rewrite (batch_one_request_per_repository decimal_int 0 "acme" "t0ken" "backend"
             "pull" ["api"; "web"; "docs"]
             [reply 204 None; reply 404 (Some not_found_message); reply 500 None] []
             (world_of 0 [reply 204 None; reply 404 (Some not_found_message);
                          reply 500 None])
             eq_refl Hall eq_refl).
  reflexivity.
Defined.

Lemma add_team_command_grants_all_witness :
  repo_names_of_args None (Some "repos.csv")
    (world_with_file "repos.csv" [["api"]; ["web"]]
       [reply 200 None; reply 204 None; reply 422 None])
  = (Ret ["api"; "web"],
     world_with_file "repos.csv" [["api"]; ["web"]]
       [reply 200 None; reply 204 None; reply 422 None])
  /\ main decimal_int plain_str 1
       (AddTeam "acme" "t0ken" "backend" None (Some "repos.csv") "write")
       (world_with_file "repos.csv" [["api"]; ["web"]]
          [reply 200 None; reply 204 None; reply 422 None])
     = (Ret tt,
        advance (world_with_file "repos.csv" [["api"]; ["web"]] []) []
          [Sent (lookup_request "acme" "backend" "t0ken");
           Sent (grant_request "acme" "t0ken" "backend" "api" "push");
           Logged INFO (TeamAdded "backend" "api" "push");
           Sent (grant_request "acme" "t0ken" "backend" "web" "push");
           Logged ERROR (AddTeamFailed "web" (HTTPError (reply 422 None)))]).
Proof.
  assert (Hnames : repo_names_of_args None (Some "repos.csv")
                     (world_with_file "repos.csv" [["api"]; ["web"]]
                        [reply 200 None; reply 204 None; reply 422 None])
                   = (Ret ["api"; "web"],
                      world_with_file "repos.csv" [["api"]; ["web"]]
                        [reply 200 None; reply 204 None; reply 422 None]))
    by (vm_compute; reflexivity).
  split; [exact Hnames|].
  rewrite (add_team_command_grants_all decimal_int plain_str 0 "acme" "t0ken"
             "backend" None (Some "repos.csv") "write" ["api"; "web"]
             (reply 200 None) [reply 204 None; reply 422 None] [] _
             Hnames eq_refl eq_refl eq_refl);
    [reflexivity | repeat constructor].
Defined.

Lemma list_all_repos_error_page_witness :
  linked [page_reply [repo_object 1 "a"] (Some page_2)] [page_2]
  /\ list_all_repos 2 "acme" "t0ken"
       (world_of 0 [page_reply [repo_object 1 "a"] (Some page_2); reply 502 None])
     = (Raise (HTTPError (reply 502 None)),
        advance (world_of 0 []) []
          [Sent (page_request "t0ken" "https://api.github.com/orgs/acme/repos");
           Sent (page_request "t0ken" page_2)]).
Proof.
  assert (Hl : linked [page_reply [repo_object 1 "a"] (Some page_2)] [page_2]).
  { eapply linked_cons; [reflexivity | reflexivity | vm_compute; reflexivity
                        | apply linked_nil]. }
  split; [exact Hl|].
  rewrite (list_all_repos_error_page 2 "acme" "t0ken"
             [page_reply [repo_object 1 "a"] (Some page_2)] [page_2]
             (reply 502 None) []
             (world_of 0 [page_reply [repo_object 1 "a"] (Some page_2);
                          reply 502 None])
             Hl eq_refl eq_refl);
    [reflexivity | simpl; lia].
Defined.

Lemma repository_without_name_raises_witness :
  assoc "name" [("id", JNum 2)] = None
  /\ fst (list_all_repos 1 "acme" "t0ken"
            (world_of 0 [page_reply [repo_object 1 "a"; JObj [("id", JNum 2)];
                                     repo_object 3 "c"] None]))
     = Raise (KeyError "name").
Proof.
  split; [reflexivity|].
  rewrite (repository_without_name_raises 1 "acme" "t0ken"
             (world_of 0 [page_reply [repo_object 1 "a"; JObj [("id", JNum 2)];
                                      repo_object 3 "c"] None])
             (advance (world_of 0 []) []
                [Sent (page_request "t0ken" "https://api.github.com/orgs/acme/repos")])
             [repo_object 1 "a"] [JStr "a"] [("id", JNum 2)] [repo_object 3 "c"]);
    [reflexivity | vm_compute; reflexivity | | reflexivity].
  repeat constructor. eexists. split; reflexivity.
Defined.


